(** * TaskScheduler (src/scheduler/task_scheduler.py)

    A shallow embedding of the task scheduler: the two SQLite tables
    ([tasks], [task_logs]), the in-memory job store of the background
    scheduler and the registry of task functions are one explicit state
    record; every method of the class is a function on that state.

    Python strings are read as sequences of code points below 256, Python
    integers as [Z]; an integer handed to SQLite must fit 64 bits (module
    [Called]).  Clock readings ([datetime.now(...).isoformat()]) and
    the outcome of calling a task body are inputs of the functions that
    read them. *)

From Stdlib Require Import ZArith String Ascii List Lia.
From stdpp Require Import base gmap strings list fin_maps pretty sorting.

Local Open Scope string_scope.
Local Open Scope Z_scope.

(** ** Python string primitives used by the parser *)

Module Py.

(** [str.isspace] on code points below 256. *)
Definition isspace (c : ascii) : bool :=
  let n := N_of_ascii c in
  ((9 <=? n) && (n <=? 13) || (28 <=? n) && (n <=? 32)
   || (n =? 133) || (n =? 160))%N.

(** [s.split()]: the maximal runs of non-whitespace characters. *)
Fixpoint split_from (word : string) (s : string) : list string :=
  match s with
  | EmptyString => if decide (word = "") then [] else [word]
  | String c s' =>
      if isspace c
      then (if decide (word = "") then split_from "" s'
            else word :: split_from "" s')
      else split_from (word +:+ String c "") s'
  end.

Definition split (s : string) : list string := split_from "" s.

(** [s.startswith(p)]. *)
Definition startswith (s p : string) : bool := String.prefix p s.

(** Truth value of an optional string ([None] and [""] are false). *)
Definition truthy (s : option string) : bool :=
  match s with
  | None | Some EmptyString => false
  | Some _ => true
  end.

Definition digit_of (c : ascii) : option Z :=
  let n := N_of_ascii c in
  if ((48 <=? n) && (n <=? 57))%N then Some (Z.of_N n - 48) else None.

Fixpoint lstrip (s : string) : string :=
  match s with
  | String c s' => if isspace c then lstrip s' else s
  | EmptyString => s
  end.

Fixpoint all_space (s : string) : bool :=
  match s with
  | String c s' => isspace c && all_space s'
  | EmptyString => true
  end.

(** Digits after the first one: more digits, single underscores between
    digits, then only whitespace.  [after_underscore] tells that the
    character just read was an underscore, which a digit must follow. *)
Fixpoint int_digits (acc : Z) (after_underscore : bool) (s : string)
    : option Z :=
  match s with
  | EmptyString => if after_underscore then None else Some acc
  | String c s' =>
      match digit_of c with
      | Some d => int_digits (10 * acc + d) false s'
      | None =>
          if after_underscore then None
          else if decide (c = "_"%char) then int_digits acc true s'
          else if all_space s then Some acc else None
      end
  end.

Definition int_unsigned (s : string) : option Z :=
  match s with
  | String c s' =>
      match digit_of c with
      | Some d => int_digits d false s'
      | None => None
      end
  | EmptyString => None
  end.

(** [int(s)] in base ten; [None] stands for the [ValueError]. *)
Definition int (s : string) : option Z :=
  match lstrip s with
  | String c s' =>
      if decide (c = "+"%char) then int_unsigned s'
      else if decide (c = "-"%char) then Z.opp <$> int_unsigned s'
      else int_unsigned (String c s')
  | EmptyString => None
  end.

(** No whitespace anywhere in [s]. *)
Fixpoint no_space (s : string) : bool :=
  match s with
  | String c s' => negb (isspace c) && no_space s'
  | EmptyString => true
  end.

End Py.

(** ** Triggers of the scheduling library

    [CronTrigger] and [IntervalTrigger] belong to APScheduler.  What the
    scheduler needs from them is whether the constructor returns or raises;
    that is the interface below. *)

Inductive Trigger :=
| CronTrigger (minute hour day month day_of_week : string)
| IntervalTrigger (seconds : Z).

Class TriggerLib := {
  cron_accepts : string → string → string → string → string → bool;
  interval_accepts : Z → bool
}.

(** ** Data model *)

Definition Time := string.

Inductive Status := pending | running | completed | failed | cancelled.

Global Instance Status_eq_dec : EqDecision Status.
Proof. solve_decision. Defined.

Definition TASK_PRIORITIES : list string := ["low"; "normal"; "high"; "critical"].
Definition TASK_STATUSES : list Status :=
  [pending; running; completed; failed; cancelled].

(** A row of table [tasks]. *)
Record Task := mkTask {
  id : Z;
  task_type : string;
  priority : string;
  schedule : option string;
  retry_count : Z;
  max_retries : Z;
  status : Status;
  last_run_at : option Time;
  next_run_at : option Time;
  created_at : Time;
  updated_at : Time
}.

(** A row of table [task_logs]; its own id is its position in the table. *)
Record TaskLog := mkTaskLog {
  log_task_id : Z;
  log_status : Status;
  started_at : Time;
  completed_at : option Time;
  error_message : option string
}.

(** A job of the background scheduler: [_execute_task] is called on
    [job_args] whenever [job_trigger] is due. *)
Record Job := mkJob {
  job_trigger : Trigger;
  job_args : Z * string;
  job_name : string
}.

(** A task body is opaque; what a call of it does is an [Outcome]. *)
Inductive Callable := Fn (handle : nat).

Inductive Outcome :=
| Returns
| Raises (message : string).

Record Scheduler := mkScheduler {
  tasks : gmap Z Task;            (* table tasks, by primary key *)
  tasks_seq : Z;                  (* AUTOINCREMENT counter of tasks *)
  task_logs : list TaskLog;       (* table task_logs, oldest first *)
  jobs : gmap string Job;         (* scheduler job store, by job id *)
  task_functions : gmap string Callable
}.

Inductive Exn :=
| ValueError (message : string)
| TypeError
| OverflowError
| OperationalError.

Inductive Result (A : Type) :=
| Ok (a : A) (st : Scheduler)
| Raise (e : Exn) (st : Scheduler).
Arguments Ok {A} a st.
Arguments Raise {A} e st.

Definition state_of {A} (r : Result A) : Scheduler :=
  match r with Ok _ st | Raise _ st => st end.

(** A scheduler right after [__init__] on an empty database. *)
Definition init : Scheduler :=
  {| tasks := ∅; tasks_seq := 0; task_logs := []; jobs := ∅;
     task_functions := ∅ |}.

(** ** Table updates *)

Definition with_tasks (f : gmap Z Task → gmap Z Task) (st : Scheduler) : Scheduler :=
  {| tasks := f (tasks st); tasks_seq := tasks_seq st;
     task_logs := task_logs st; jobs := jobs st;
     task_functions := task_functions st |}.

Definition with_jobs (f : gmap string Job → gmap string Job) (st : Scheduler) : Scheduler :=
  {| tasks := tasks st; tasks_seq := tasks_seq st;
     task_logs := task_logs st; jobs := f (jobs st);
     task_functions := task_functions st |}.

(** [UPDATE tasks SET status='running', last_run_at=?, updated_at=?] *)
Definition set_running (now : Time) (t : Task) : Task :=
  {| id := id t; task_type := task_type t; priority := priority t;
     schedule := schedule t; retry_count := retry_count t;
     max_retries := max_retries t; status := running;
     last_run_at := Some now; next_run_at := next_run_at t;
     created_at := created_at t; updated_at := now |}.

(** [UPDATE tasks SET retry_count=?, status=?, updated_at=?] *)
Definition set_retry (rc : Z) (s : Status) (now : Time) (t : Task) : Task :=
  {| id := id t; task_type := task_type t; priority := priority t;
     schedule := schedule t; retry_count := rc;
     max_retries := max_retries t; status := s;
     last_run_at := last_run_at t; next_run_at := next_run_at t;
     created_at := created_at t; updated_at := now |}.

(** [UPDATE tasks SET status=?, updated_at=?] *)
Definition set_status (s : Status) (now : Time) (t : Task) : Task :=
  {| id := id t; task_type := task_type t; priority := priority t;
     schedule := schedule t; retry_count := retry_count t;
     max_retries := max_retries t; status := s;
     last_run_at := last_run_at t; next_run_at := next_run_at t;
     created_at := created_at t; updated_at := now |}.

(** Largest primary key present in [tasks]. *)
Definition max_rowid (m : gmap Z Task) : Z :=
  map_fold (λ k _ acc, Z.max k acc) 0 m.

(** [cursor.lastrowid] of an insert: AUTOINCREMENT takes one more than
    the largest id the table has ever held. *)
Definition lastrowid (st : Scheduler) : Z :=
  1 + Z.max (tasks_seq st) (max_rowid (tasks st)).

Definition insert_task (t : Task) (st : Scheduler) : Scheduler :=
  {| tasks := <[id t := t]> (tasks st); tasks_seq := id t;
     task_logs := task_logs st; jobs := jobs st;
     task_functions := task_functions st |}.

Definition insert_log (l : TaskLog) (st : Scheduler) : Scheduler :=
  {| tasks := tasks st; tasks_seq := tasks_seq st;
     task_logs := (task_logs st ++ [l])%list; jobs := jobs st;
     task_functions := task_functions st |}.

(** ** The methods of [TaskScheduler] *)

Definition register_task_function (task_type : string) (func : Callable)
    (st : Scheduler) : Scheduler :=
  {| tasks := tasks st; tasks_seq := tasks_seq st;
     task_logs := task_logs st; jobs := jobs st;
     task_functions := <[task_type := func]> (task_functions st) |}.

Definition job_id (task_id : Z) : string := "task_" +:+ pretty task_id.

Section Methods.
Context `{TriggerLib}.

Definition _parse_schedule (schedule : string) : option Trigger :=
  let parts := Py.split schedule in
  if decide (length parts = 5%nat) then
    match parts with
    | [p0; p1; p2; p3; p4] =>
        if cron_accepts p0 p1 p2 p3 p4
        then Some (CronTrigger p0 p1 p2 p3 p4)
        else None
    | _ => None
    end
  else if Py.startswith schedule "interval " then
    match Py.split schedule !! 1%nat with
    | None => None                      (* IndexError *)
    | Some tok =>
        match Py.int tok with
        | None => None                  (* ValueError *)
        | Some interval =>
            if interval_accepts interval
            then Some (IntervalTrigger interval)
            else None
        end
    end
  else None.

(** [add_job] is an insertion: the job id of a new task is never in the
    store already (lemma [add_job_never_conflicts]). *)
Definition _schedule_task (task_id : Z) (task_type : string)
    (schedule : string) (st : Scheduler) : Scheduler :=
  if decide (task_type ∈ dom (task_functions st)) then
    match _parse_schedule schedule with
    | None => st
    | Some trigger =>
        with_jobs
          (insert (job_id task_id)
             {| job_trigger := trigger; job_args := (task_id, task_type);
                job_name := task_type +:+ "_" +:+ pretty task_id |})
          st
    end
  else st.

Definition add_task (now : Time) (task_type priority : string)
    (schedule : option string) (retry_count max_retries : Z)
    (manual_trigger : bool) (st : Scheduler) : Result Z :=
  if decide (priority ∈ TASK_PRIORITIES) then
    let task_id := lastrowid st in
    let st1 :=
      insert_task
        {| id := task_id; task_type := task_type; priority := priority;
           schedule := schedule; retry_count := retry_count;
           max_retries := max_retries; status := pending;
           last_run_at := None; next_run_at := None;
           created_at := now; updated_at := now |} st in
    match schedule with
    | Some s =>
        if Py.truthy schedule && negb manual_trigger
        then Ok task_id (_schedule_task task_id task_type s st1)
        else Ok task_id st1
    | None => Ok task_id st1
    end
  else Raise (ValueError ("Invalid priority: " +:+ priority)) st.

End Methods.

(** Default arguments of [add_task]. *)
Definition default_priority : string := "normal".
Definition default_schedule : option string := None.
Definition default_retry_count : Z := 3.
Definition default_max_retries : Z := 3.
Definition default_manual_trigger : bool := false.

(** What the body call inside [_execute_task] yields: [(success,
    error_message)]. *)
Definition run_body (task_type : string) (body : Outcome) (st : Scheduler)
    : bool * option string :=
  if decide (task_type ∈ dom (task_functions st)) then
    match body with
    | Returns => (true, None)
    | Raises e => (false, Some e)
    end
  else (false, Some ("No function registered for task type: " +:+ task_type)).

(** First statement of [_execute_task]: the row is marked running. *)
Definition mark_running (now : Time) (task_id : Z) (st : Scheduler) : Scheduler :=
  with_tasks (alter (set_running now) task_id) st.

(** The rest of [_execute_task] once the counters are read. *)
Definition record_outcome (t_start t_end : Time) (task_id : Z)
    (retry_count max_retries : Z) (success : bool)
    (error_message : option string) (st : Scheduler) : Scheduler :=
  let status := if success then completed else failed in
  let st2 :=
    if negb success && (retry_count <? max_retries)%Z then
      with_tasks (alter (set_retry (retry_count + 1) pending t_end) task_id) st
    else
      with_tasks (alter (set_status status t_end) task_id) st in
  insert_log
    {| log_task_id := task_id;
       log_status := if success then completed else failed;
       started_at := t_start; completed_at := Some t_end;
       error_message := error_message |} st2.

Definition _execute_task (t_start t_end : Time) (body : Outcome)
    (task_id : Z) (task_type : string) (st : Scheduler) : Result unit :=
  let st1 := mark_running t_start task_id st in
  match tasks st1 !! task_id with
  | None => Raise TypeError st          (* fetchone() gave None; no commit *)
  | Some task_data =>
      let '(success, error_message) := run_body task_type body st1 in
      Ok tt (record_outcome t_start t_end task_id
               (retry_count task_data) (max_retries task_data)
               success error_message st1)
  end.

Definition trigger_task (t_start t_end : Time) (body : Outcome)
    (task_id : Z) (st : Scheduler) : Result bool :=
  match tasks st !! task_id with
  | None => Ok false st
  | Some task_data =>
      if decide (status task_data ∈ [cancelled; completed]) then Ok false st
      else
        match _execute_task t_start t_end body task_id
                (task_type task_data) st with
        | Ok _ st' => Ok true st'
        | Raise e st' => Raise e st'
        end
  end.

Definition cancel_task (now : Time) (task_id : Z) (st : Scheduler)
    : bool * Scheduler :=
  let st1 := with_jobs (delete (job_id task_id)) st in
  (true, with_tasks (alter (set_status cancelled now) task_id) st1).

Definition get_task_status (task_id : Z) (st : Scheduler) : option Task :=
  tasks st !! task_id.

(** ** Integer arguments

    [cursor.execute] binds a Python int as a signed 64-bit integer and
    raises [OverflowError] for one that does not fit.  The definitions above
    are the methods on integers that bind; [Called] puts the binding in
    front of them, at the statement where the method first hands the integer
    to SQLite, and so gives the methods on every Python int.  Row ids are
    64-bit as well: an AUTOINCREMENT table whose largest id so far is
    [2^63 - 1] takes no further row, and the INSERT fails with
    [sqlite3.OperationalError]. *)

Definition int64 (n : Z) : Prop := - 2 ^ 63 ≤ n < 2 ^ 63.

Global Instance int64_dec (n : Z) : Decision (int64 n).
Proof. unfold int64. apply _. Defined.

Module Called.

Section WithTriggers.
Context `{TriggerLib}.

(** The priority check comes first.  The INSERT then binds [retry_count]
    and [max_retries]; when one does not fit, or when the table is out of
    row ids, it raises before a row is written and before [_schedule_task]
    is reached. *)
Definition add_task (now : Time) (task_type priority : string)
    (schedule : option string) (retry_count max_retries : Z)
    (manual_trigger : bool) (st : Scheduler) : Result Z :=
  if decide (priority ∈ TASK_PRIORITIES) then
    if decide (int64 retry_count ∧ int64 max_retries) then
      if decide (int64 (lastrowid st))
      then add_task now task_type priority schedule retry_count max_retries
             manual_trigger st
      else Raise OperationalError st
    else Raise OverflowError st
  else add_task now task_type priority schedule retry_count max_retries
         manual_trigger st.

End WithTriggers.

(** The SELECT that opens [trigger_task] binds [task_id]. *)
Definition trigger_task (t_start t_end : Time) (body : Outcome)
    (task_id : Z) (st : Scheduler) : Result bool :=
  if decide (int64 task_id)
  then trigger_task t_start t_end body task_id st
  else Raise OverflowError st.

(** [remove_job] runs first, inside its own [try]; the UPDATE then binds
    [task_id], outside any [try]. *)
Definition cancel_task (now : Time) (task_id : Z) (st : Scheduler)
    : Result bool :=
  if decide (int64 task_id)
  then Ok (cancel_task now task_id st).1 (cancel_task now task_id st).2
  else Raise OverflowError (with_jobs (delete (job_id task_id)) st).

End Called.

(** ** A concrete trigger library for closed examples

    Accepts a cron field that is [*] or a number inside the field's range,
    and every interval that fits a [timedelta]. *)

Definition cron_field_ok (lo hi : Z) (f : string) : bool :=
  if decide (f = "*") then true
  else match Py.int_unsigned f with
       | Some n => (lo <=? n)%Z && (n <=? hi)%Z
       | None => false
       end.

Definition simple_triggers : TriggerLib :=
  {| cron_accepts := λ mi h d mo dw,
       cron_field_ok 0 59 mi && cron_field_ok 0 23 h && cron_field_ok 1 31 d
       && cron_field_ok 1 12 mo && cron_field_ok 0 6 dw;
     interval_accepts := λ n,
       (-86400 * 999999999 <=? n)%Z && (n <? 86400 * 1000000000)%Z |}.

(** ** Histories of calls

    What can happen to a scheduler: the public methods, and the engine
    firing a job of its store ([Fire]).  An exception leaves the state as
    the raising method left it. *)

Inductive Call :=
| Register (task_type : string) (func : Callable)
| AddTask (now : Time) (task_type priority : string)
    (schedule : option string) (retry_count max_retries : Z)
    (manual_trigger : bool)
| TriggerTask (t_start t_end : Time) (body : Outcome) (task_id : Z)
| CancelTask (now : Time) (task_id : Z)
| Fire (job : string) (t_start t_end : Time) (body : Outcome).

Section Histories.
Context `{TriggerLib}.

Definition run (c : Call) (st : Scheduler) : Scheduler :=
  match c with
  | Register ty f => register_task_function ty f st
  | AddTask now ty pr sched rc mr manual =>
      state_of (add_task now ty pr sched rc mr manual st)
  | TriggerTask ts te body tid => state_of (trigger_task ts te body tid st)
  | CancelTask now tid => (cancel_task now tid st).2
  | Fire j ts te body =>
      match jobs st !! j with
      | Some job =>
          state_of (_execute_task ts te body (job_args job).1
                      (job_args job).2 st)
      | None => st
      end
  end.

(** States reached from [st0] by calls that all satisfy [ok]. *)
Inductive reachable_from (ok : Call → Prop) (st0 : Scheduler)
    : Scheduler → Prop :=
| reach_start : reachable_from ok st0 st0
| reach_step c st :
    reachable_from ok st0 st → ok c → reachable_from ok st0 (run c st).

End Histories.

Definition any_call (c : Call) : Prop := True.

(** [add_task] calls whose counters start inside their range. *)
Definition add_args_bounded (c : Call) : Prop :=
  match c with
  | AddTask _ _ _ _ rc mr _ => 0 ≤ rc ≤ mr
  | _ => True
  end.

Definition bounded (t : Task) : Prop := 0 ≤ retry_count t ≤ max_retries t.

(** The status [s'] a call made in state [st] may leave on the row [tid]
    that it finds with status [s]: [cancel_task] on [tid] gives cancelled;
    [trigger_task] on [tid], unless refused, and a firing of the job stored
    under the job id of [tid] give completed, pending or failed, and such a
    job is only met while the row is not cancelled; every other call gives
    [s] back. *)
Definition transition (st : Scheduler) (tid : Z) (c : Call)
    (s s' : Status) : Prop :=
  match c with
  | CancelTask _ k => if decide (k = tid) then s' = cancelled else s' = s
  | TriggerTask _ _ _ k =>
      if decide (k = tid ∧ s ∉ [cancelled; completed])
      then s' ∈ [completed; pending; failed]
      else s' = s
  | Fire j _ _ _ =>
      if decide (j = job_id tid ∧ is_Some (jobs st !! j))
      then s ≠ cancelled ∧ s' ∈ [completed; pending; failed]
      else s' = s
  | Register _ _ | AddTask _ _ _ _ _ _ _ => s' = s
  end.

(** ** Runs in flight

    The engine hands a fired job to a pool of worker threads, so a run
    dispatched before a call can finish after it.  [Completes] is such a run
    committing: [_execute_task] with the arguments it was dispatched with,
    whose statements on the database form one transaction.  A run that
    found no body registered when it looked is the one whose body raises
    the corresponding message. *)
Inductive Event :=
| Calls (c : Call)
| Completes (t_start t_end : Time) (body : Outcome) (task_id : Z)
    (task_type : string).

Definition occur `{TriggerLib} (e : Event) (st : Scheduler) : Scheduler :=
  match e with
  | Calls c => run c st
  | Completes ts te body task_id task_type =>
      state_of (_execute_task ts te body task_id task_type st)
  end.

Definition occur_all `{TriggerLib} (es : list Event) (st : Scheduler)
    : Scheduler :=
  foldl (λ st e, occur e st) st es.

(** The schedule forms of the specification. *)
Definition is_cron `{TriggerLib} (s : string) : Prop :=
  ∃ p0 p1 p2 p3 p4,
    Py.split s = [p0; p1; p2; p3; p4] ∧ cron_accepts p0 p1 p2 p3 p4 = true.

(** ["interval N"] with [N] an integer. *)
Definition is_interval (s : string) : Prop :=
  ∃ N n, s = "interval " +:+ N ∧ Py.int N = Some n.

(** What the parser takes for an interval: the prefix ["interval "] and an
    integer second field that the interval trigger accepts. *)
Definition is_interval_prefix `{TriggerLib} (s : string) : Prop :=
  Py.startswith s "interval " = true ∧
  ∃ tok n, Py.split s !! 1%nat = Some tok ∧ Py.int tok = Some n ∧
           interval_accepts n = true.

(** ** Closed forms of the effects of [add_task] and [_execute_task] *)

(** The trigger [add_task] hands to the job store, if any. *)
Definition scheduled_trigger `{TriggerLib} (task_type : string)
    (schedule : option string) (manual_trigger : bool) (st : Scheduler)
    : option Trigger :=
  match schedule with
  | Some s =>
      if Py.truthy schedule && negb manual_trigger
         && bool_decide (task_type ∈ dom (task_functions st))
      then _parse_schedule s else None
  | None => None
  end.

Definition new_row (tid : Z) (now : Time) (ty pr : string)
    (sched : option string) (rc mr : Z) : Task :=
  {| id := tid; task_type := ty; priority := pr; schedule := sched;
     retry_count := rc; max_retries := mr; status := pending;
     last_run_at := None; next_run_at := None;
     created_at := now; updated_at := now |}.

Definition new_job (tid : Z) (ty : string) (trig : Trigger) : Job :=
  {| job_trigger := trig; job_args := (tid, ty);
     job_name := ty +:+ "_" +:+ pretty tid |}.

(** The row after an execution that started at [ts] and ended at [te]. *)
Definition executed (ts te : Time) (success : bool) (t : Task) : Task :=
  if negb success && (retry_count t <? max_retries t)
  then set_retry (retry_count t + 1) pending te (set_running ts t)
  else set_status (if success then completed else failed) te
         (set_running ts t).

Definition execution_log (ts te : Time) (tid : Z) (r : bool * option string)
    : TaskLog :=
  {| log_task_id := tid; log_status := if r.1 then completed else failed;
     started_at := ts; completed_at := Some te; error_message := r.2 |}.

(** ** The job store and the rows it points at

    Every job sits under the job id of the task it runs, and that task
    exists and is not cancelled. *)
Definition jobs_live (st : Scheduler) : Prop :=
  ∀ j job, jobs st !! j = Some job →
    j = job_id (job_args job).1 ∧
    ∃ t, tasks st !! (job_args job).1 = Some t ∧ status t ≠ cancelled.

(** ** Concrete schedulers for closed examples *)

Definition eg_registered : Scheduler :=
  register_task_function "job" (Fn 0) init.

(** One task of type ["job"], added with the given counters. *)
Definition eg_added (rc mr : Z) : Scheduler :=
  state_of (add_task (H := simple_triggers) "t0" "job" "normal" None rc mr
              false eg_registered).

(** A registration, an [add_task] with the given counters and one manual
    trigger with the given body outcome. *)
Definition eg_history (rc mr : Z) (body : Outcome) : list Call :=
  [Register "job" (Fn 0);
   AddTask "t0" "job" "normal" None rc mr false;
   TriggerTask "t1" "t2" body 1].

Definition run_all `{TriggerLib} (cs : list Call) (st : Scheduler) : Scheduler :=
  foldl (λ st c, run c st) st cs.

Definition eg_ran (rc mr : Z) (body : Outcome) : Scheduler :=
  run_all (H := simple_triggers) (eg_history rc mr body) init.

(** A task of a registered type with an interval schedule, so that its
    job is in the store. *)
Definition eg_scheduled : Scheduler :=
  run_all (H := simple_triggers)
    [Register "job" (Fn 0);
     AddTask "t0" "job" "critical" (Some "interval 5") 0 3 false] init.

(** The same history as events, and what may follow a cancellation of
    task 1: a run dispatched earlier completes, then a manual trigger and
    another [add_task]. *)
Definition eg_scheduling : list Event :=
  [Calls (Register "job" (Fn 0));
   Calls (AddTask "t0" "job" "critical" (Some "interval 5") 0 3 false)].

Definition eg_late : list Event :=
  [Completes "t4" "t5" Returns 1 "job";
   Calls (TriggerTask "t6" "t7" Returns 1);
   Calls (AddTask "t8" "job" "normal" (Some "interval 9") 0 3 false)].

(** ** Reading the tables *)

(** The text held in column [status]. *)
Definition status_text (s : Status) : string :=
  match s with
  | pending => "pending"
  | running => "running"
  | completed => "completed"
  | failed => "failed"
  | cancelled => "cancelled"
  end.

Definition key_le (a b : Z * Task) : Prop := a.1 ≤ b.1.

Global Instance key_le_dec : RelDecision key_le.
Proof. intros a b. unfold key_le. apply _. Defined.

(** [SELECT * FROM tasks ORDER BY id]: the rows, by ascending primary
    key. *)
Definition rows_by_id (m : gmap Z Task) : list Task :=
  (merge_sort key_le (map_to_list m)).*2.

(** [get_all_tasks(status)]: a filter that is [None] or empty selects every
    row. *)
Definition get_all_tasks (status_filter : option string) (st : Scheduler)
    : list Task :=
  match status_filter with
  | Some s =>
      if Py.truthy status_filter
      then filter (λ t, status_text (status t) = s) (rows_by_id (tasks st))
      else rows_by_id (tasks st)
  | None => rows_by_id (tasks st)
  end.

(** ** Consistency of the tables

    Conditions the methods keep once they hold, as they do on an empty
    database. *)

(** The columns of a row that no method rewrites. *)
Definition same_task (t t' : Task) : Prop :=
  id t' = id t ∧ task_type t' = task_type t ∧ priority t' = priority t ∧
  schedule t' = schedule t ∧ max_retries t' = max_retries t ∧
  created_at t' = created_at t ∧ next_run_at t' = next_run_at t.

(** Every row sits under its own id, has a valid priority, is not left
    running and has no [next_run_at]. *)
Definition rows_ok (st : Scheduler) : Prop :=
  ∀ k t, tasks st !! k = Some t →
    id t = k ∧ priority t ∈ TASK_PRIORITIES ∧ status t ≠ running ∧
    next_run_at t = None.

(** An execution record is finished, is completed exactly when it carries
    no error message, and belongs to a task of table [tasks]. *)
Definition log_ok (st : Scheduler) (l : TaskLog) : Prop :=
  log_status l ∈ [completed; failed] ∧
  is_Some (completed_at l) ∧
  (log_status l = completed ↔ error_message l = None) ∧
  is_Some (tasks st !! log_task_id l).

Definition logs_ok (st : Scheduler) : Prop := Forall (log_ok st) (task_logs st).

(** The execution records of task [k], oldest first, and the latest one. *)
Definition logs_of (k : Z) (logs : list TaskLog) : list TaskLog :=
  filter (λ l, log_task_id l = k) logs.

Definition last_log (k : Z) (logs : list TaskLog) : option TaskLog :=
  last (logs_of k logs).

(** The summary a row carries agrees with the latest record of its task. *)
Definition summary_ok (st : Scheduler) : Prop :=
  ∀ k t, tasks st !! k = Some t →
    last_run_at t = started_at <$> last_log k (task_logs st) ∧
    (status t = completed →
       log_status <$> last_log k (task_logs st) = Some completed) ∧
    (status t = failed →
       log_status <$> last_log k (task_logs st) = Some failed ∧
       max_retries t ≤ retry_count t) ∧
    (status t = pending → is_Some (last_run_at t) →
       log_status <$> last_log k (task_logs st) = Some failed ∧
       retry_count t ≤ max_retries t).

(** Every job runs an existing, uncancelled task under that task's job id
    and name, with the task's own type, which has a registered body, and
    with the trigger parsed from the task's schedule. *)
Definition jobs_described `{TriggerLib} (st : Scheduler) : Prop :=
  ∀ j job, jobs st !! j = Some job →
    j = job_id (job_args job).1 ∧
    job_name job = (job_args job).2 +:+ "_" +:+ pretty (job_args job).1 ∧
    (job_args job).2 ∈ dom (task_functions st) ∧
    ∃ t s,
      tasks st !! (job_args job).1 = Some t ∧
      task_type t = (job_args job).2 ∧
      schedule t = Some s ∧
      _parse_schedule s = Some (job_trigger job) ∧
      status t ≠ cancelled.

(** The row after [n] executions in a row, all of which failed. *)
Definition after_failures (n : nat) (t : Task) : Status * Z :=
  if decide (retry_count t + Z.of_nat n ≤ max_retries t)
  then (pending, retry_count t + Z.of_nat n)
  else (failed, Z.max (retry_count t) (max_retries t)).

(** * Properties *)

(** Decidable side conditions on closed terms. *)
Ltac by_compute := apply (bool_decide_unpack _); vm_compute; exact I.

(** ** Keys of [tasks] *)

Lemma max_rowid_ge (m : gmap Z Task) k t : m !! k = Some t → k ≤ max_rowid m.
Proof.
  unfold max_rowid. revert k t.
  apply (map_fold_weak_ind
           (λ r (m : gmap Z Task), ∀ k t, m !! k = Some t → k ≤ r)).
  - intros k t Hk. by rewrite lookup_empty in Hk.
  - intros i x m' r Hi IH k t Hk.
    destruct (decide (i = k)) as [->|Hne].
    + lia.
    + rewrite lookup_insert_ne in Hk by done.
      specialize (IH k t Hk). lia.
Qed.

Lemma lastrowid_fresh st : tasks st !! lastrowid st = None.
Proof.
  destruct (tasks st !! lastrowid st) as [t|] eqn:E; [|done].
  apply max_rowid_ge in E. unfold lastrowid in E. lia.
Qed.

Lemma alter_present {A} (f : A → A) (m : gmap Z A) k x :
  m !! k = Some x → alter f k m = <[k := f x]> m.
Proof.
  intros Hk. apply map_eq. intros j.
  rewrite lookup_alter, lookup_insert.
  case_decide; [subst; by rewrite Hk | done].
Qed.

(** ** What [add_task] leaves behind *)

Section AddTask.
Context `{TriggerLib}.

Lemma add_task_valid now ty pr sched rc mr manual st :
  pr ∈ TASK_PRIORITIES →
  ∃ st',
    add_task now ty pr sched rc mr manual st = Ok (lastrowid st) st' ∧
    tasks st' =
      <[lastrowid st := new_row (lastrowid st) now ty pr sched rc mr]>
        (tasks st) ∧
    task_logs st' = task_logs st ∧
    task_functions st' = task_functions st ∧
    jobs st' =
      match scheduled_trigger ty sched manual st with
      | Some trig =>
          <[job_id (lastrowid st) := new_job (lastrowid st) ty trig]>
            (jobs st)
      | None => jobs st
      end.
Proof.
  intros Hpr. unfold add_task, scheduled_trigger.
  rewrite decide_True by done.
  destruct sched as [s|]; [|eexists; repeat split; reflexivity].
  destruct (Py.truthy (Some s) && negb manual) eqn:Hguard; simpl;
    [|eexists; repeat split; reflexivity].
  unfold _schedule_task; simpl.
  destruct (decide (ty ∈ dom (task_functions st))) as [Hin|Hin].
  - rewrite bool_decide_eq_true_2 by done.
    destruct (_parse_schedule s); eexists; repeat split; reflexivity.
  - rewrite bool_decide_eq_false_2 by done.
    eexists; repeat split; reflexivity.
Qed.

Lemma add_task_invalid now ty pr sched rc mr manual st :
  pr ∉ TASK_PRIORITIES →
  add_task now ty pr sched rc mr manual st
  = Raise (ValueError ("Invalid priority: " +:+ pr)) st.
Proof. intros Hpr. unfold add_task. by rewrite decide_False. Qed.

End AddTask.

(** ** What [_execute_task] leaves behind *)

Lemma mark_running_lookup ts tid st t :
  tasks st !! tid = Some t →
  tasks (mark_running ts tid st) !! tid = Some (set_running ts t).
Proof. intros Ht. simpl. by rewrite lookup_alter_eq, Ht. Qed.

Lemma execute_task_present ts te body tid ty st t :
  tasks st !! tid = Some t →
  ∃ st',
    _execute_task ts te body tid ty st = Ok tt st' ∧
    tasks st' = <[tid := executed ts te (run_body ty body st).1 t]> (tasks st) ∧
    task_logs st' =
      (task_logs st ++ [execution_log ts te tid (run_body ty body st)])%list ∧
    jobs st' = jobs st ∧
    task_functions st' = task_functions st.
Proof.
  intros Ht. unfold _execute_task.
  rewrite (mark_running_lookup _ _ _ _ Ht).
  change (run_body ty body (mark_running ts tid st)) with (run_body ty body st).
  destruct (run_body ty body st) as [success err] eqn:Hrun.
  eexists; split; [reflexivity|].
  unfold record_outcome, executed; simpl.
  destruct (negb success && (retry_count t <? max_retries t)); simpl;
    (split; [|by repeat split]);
    rewrite (alter_present _ _ _ _ (mark_running_lookup ts _ _ _ Ht));
    simpl; rewrite (alter_present _ _ _ _ Ht); by rewrite insert_insert_eq.
Qed.

Lemma execute_task_absent ts te body tid ty st :
  tasks st !! tid = None →
  _execute_task ts te body tid ty st = Raise TypeError st.
Proof.
  intros Ht. unfold _execute_task. simpl.
  by rewrite lookup_alter_eq, Ht.
Qed.

(** ** Strings: [split] and [int] on a padded token *)

Lemma append_cons c (a b : string) : String c a +:+ b = String c (a +:+ b).
Proof. reflexivity. Qed.

Lemma append_nil_l (a : string) : "" +:+ a = a.
Proof. reflexivity. Qed.

Lemma append_assoc (a b c : string) : (a +:+ b) +:+ c = a +:+ (b +:+ c).
Proof.
  induction a as [|x a IH]; [done|]. by rewrite !append_cons, IH.
Qed.

Lemma append_nil_r (a : string) : a +:+ "" = a.
Proof. induction a as [|x a IH]; [done|]. by rewrite append_cons, IH. Qed.

Lemma digit_not_space c d : Py.digit_of c = Some d → Py.isspace c = false.
Proof.
  destruct c as [[] [] [] [] [] [] [] []]; vm_compute; congruence.
Qed.

Lemma startswith_append p s : Py.startswith (p +:+ s) p = true.
Proof.
  unfold Py.startswith. induction p as [|c p IH]; [by destruct s|].
  rewrite append_cons. simpl. by destruct (ascii_dec c c).
Qed.

(** *** [split] *)

Lemma split_from_word tok w rest :
  Py.no_space tok = true →
  Py.split_from w (tok +:+ rest) = Py.split_from (w +:+ tok) rest.
Proof.
  revert w. induction tok as [|c tok IH]; intros w Htok.
  - by rewrite append_nil_l, append_nil_r.
  - simpl in Htok. apply andb_true_iff in Htok as [Hc Htok].
    apply negb_true_iff in Hc.
    rewrite append_cons. simpl. rewrite Hc, IH by done.
    by rewrite append_assoc.
Qed.

Lemma split_from_spaces ws rest :
  Py.all_space ws = true →
  Py.split_from "" (ws +:+ rest) = Py.split_from "" rest.
Proof.
  induction ws as [|c ws IH]; intros Hws; [done|].
  simpl in Hws. apply andb_true_iff in Hws as [Hc Hws].
  rewrite append_cons. simpl. rewrite Hc. simpl. by apply IH.
Qed.

Lemma split_from_break w c rest :
  w ≠ "" → Py.isspace c = true →
  Py.split_from w (String c rest) = w :: Py.split_from "" rest.
Proof. intros Hw Hc. simpl. rewrite Hc. by rewrite decide_False. Qed.

Lemma split_from_tail w post :
  w ≠ "" → Py.all_space post = true → Py.split_from w post = [w].
Proof.
  intros Hw Hpost. destruct post as [|c post].
  - simpl. by rewrite decide_False.
  - simpl in Hpost. apply andb_true_iff in Hpost as [Hc Hpost].
    rewrite split_from_break by done.
    rewrite <- (append_nil_r post), split_from_spaces by done. done.
Qed.

(** A keyword, whitespace, one padded token: two fields. *)
Lemma split_keyword_token pre tok post :
  Py.all_space pre = true → Py.no_space tok = true → tok ≠ "" →
  Py.all_space post = true →
  Py.split ("interval " +:+ pre +:+ tok +:+ post) = ["interval"; tok].
Proof.
  intros Hpre Htok Hne Hpost. unfold Py.split.
  change ("interval " +:+ pre +:+ tok +:+ post)
    with ("interval" +:+ String " " (pre +:+ tok +:+ post)).
  rewrite split_from_word by done. rewrite append_nil_l.
  rewrite split_from_break by done.
  rewrite split_from_spaces by done.
  rewrite split_from_word by done. rewrite append_nil_l.
  by rewrite split_from_tail.
Qed.

(** *** [int] *)

Lemma lstrip_spec s :
  ∃ pre, s = pre +:+ Py.lstrip s ∧ Py.all_space pre = true.
Proof.
  induction s as [|c s (pre & Hs & Hpre)]; [by exists ""|].
  simpl. destruct (Py.isspace c) eqn:Hc; [|by exists ""].
  exists (String c pre). rewrite append_cons, <- Hs. split; [done|].
  simpl. by rewrite Hc.
Qed.

Lemma int_digits_token acc f s n :
  Py.int_digits acc f s = Some n →
  ∃ tok post,
    s = tok +:+ post ∧ Py.no_space tok = true ∧ Py.all_space post = true ∧
    Py.int_digits acc f tok = Some n.
Proof.
  revert acc f. induction s as [|c s IH]; intros acc f Hs.
  - by exists "", "".
  - simpl in Hs. destruct (Py.digit_of c) as [d|] eqn:Hd.
    + destruct (IH _ _ Hs) as (tok & post & -> & Htok & Hpost & Hn).
      exists (String c tok), post. rewrite append_cons. simpl.
      rewrite Hd, (digit_not_space _ _ Hd). by split_and!.
    + destruct f; [done|].
      destruct (decide (c = "_"%char)) as [->|Hc].
      * destruct (IH _ _ Hs) as (tok & post & -> & Htok & Hpost & Hn).
        exists (String "_" tok), post. rewrite append_cons. by split_and!.
      * destruct (Py.isspace c && Py.all_space s) eqn:Hall; [|done].
        exists "", (String c s). by split_and!.
Qed.

Lemma int_unsigned_token s n :
  Py.int_unsigned s = Some n →
  ∃ tok post,
    s = tok +:+ post ∧ Py.no_space tok = true ∧ tok ≠ "" ∧
    Py.all_space post = true ∧ Py.int_unsigned tok = Some n.
Proof.
  destruct s as [|c s]; [done|]. simpl.
  destruct (Py.digit_of c) as [d|] eqn:Hd; [|done]. intros Hs.
  destruct (int_digits_token _ _ _ _ Hs) as (tok & post & -> & Htok & Hpost & Hn).
  exists (String c tok), post. rewrite append_cons. simpl.
  rewrite Hd, (digit_not_space _ _ Hd). by split_and!.
Qed.

(** A string [int] accepts is one token with whitespace around it, and
    [int] reads the token to the same value. *)
Lemma int_token s n :
  Py.int s = Some n →
  ∃ pre tok post,
    s = pre +:+ tok +:+ post ∧ Py.all_space pre = true ∧
    Py.no_space tok = true ∧ tok ≠ "" ∧ Py.all_space post = true ∧
    Py.int tok = Some n.
Proof.
  unfold Py.int at 1. destruct (lstrip_spec s) as (pre & Hs & Hpre).
  destruct (Py.lstrip s) as [|c s'] eqn:Hstrip; [done|].
  assert (Py.isspace c = false) as Hc.
  { destruct s as [|c0 s0]; [done|]. clear Hs.
    revert Hstrip. generalize (String c0 s0) as s1. intros s1.
    induction s1 as [|x s1 IH]; [done|]. simpl.
    destruct (Py.isspace x) eqn:Hx; [done|]. by intros [= <- _]. }
  assert (∀ tok, Py.int (String c tok) =
                 if decide (c = "+"%char) then Py.int_unsigned tok
                 else if decide (c = "-"%char) then Z.opp <$> Py.int_unsigned tok
                 else Py.int_unsigned (String c tok)) as Hint.
  { intros tok. unfold Py.int. simpl. by rewrite Hc. }
  intros Hn.
  destruct (decide (c = "+"%char)) as [Hplus|Hplus].
  { destruct (int_unsigned_token _ _ Hn)
      as (tok & post & -> & Htok & Hne & Hpost & Hv).
    exists pre, (String c tok), post. rewrite Hs, append_cons.
    rewrite Hint. simpl. rewrite Hc. by split_and!. }
  destruct (decide (c = "-"%char)) as [Hminus|Hminus].
  { destruct (Py.int_unsigned s') as [m|] eqn:Hm; [|done].
    destruct (int_unsigned_token _ _ Hm)
      as (tok & post & -> & Htok & Hne & Hpost & Hv).
    exists pre, (String c tok), post. rewrite Hs, append_cons.
    rewrite Hint, Hv. simpl. rewrite Hc. by split_and!. }
  destruct (int_unsigned_token _ _ Hn)
    as (tok & post & Heq & Htok & Hne & Hpost & Hv).
  exists pre, tok, post. rewrite Hs, Heq. split_and!; try done.
  destruct tok as [|c1 tok]; [done|].
  rewrite append_cons in Heq. injection Heq as <- _.
  by rewrite Hint.
Qed.

(** ** The parser *)

Section Parser.
Context `{TriggerLib}.

Lemma parse_empty : _parse_schedule "" = None.
Proof. reflexivity. Qed.

Lemma parse_truthy s trig :
  _parse_schedule s = Some trig → Py.truthy (Some s) = true.
Proof. destruct s; [by rewrite parse_empty | done]. Qed.

Lemma parse_cron s : is_cron s → is_Some (_parse_schedule s).
Proof.
  intros (p0 & p1 & p2 & p3 & p4 & Hsplit & Hok).
  unfold _parse_schedule. rewrite Hsplit. simpl. by rewrite Hok.
Qed.

(** ["interval N"], with [N] an integer the interval trigger accepts,
    parses to the interval trigger of that many seconds. *)
Lemma parse_interval N n :
  Py.int N = Some n → interval_accepts n = true →
  _parse_schedule ("interval " +:+ N) = Some (IntervalTrigger n).
Proof.
  intros Hint Hacc.
  destruct (int_token _ _ Hint)
    as (pre & tok & post & -> & Hpre & Htok & Hne & Hpost & Hv).
  unfold _parse_schedule.
  rewrite split_keyword_token, startswith_append by done.
  simpl. by rewrite Hv, Hacc.
Qed.

Lemma parse_none s :
  ¬ is_cron s → ¬ is_interval_prefix s → _parse_schedule s = None.
Proof.
  intros Hcron Hint. unfold _parse_schedule.
  destruct (decide (length (Py.split s) = 5%nat)) as [Hlen|Hlen].
  - destruct (Py.split s) as [|p0 [|p1 [|p2 [|p3 [|p4 [|p5 ps]]]]]] eqn:Hs;
      try done.
    destruct (cron_accepts p0 p1 p2 p3 p4) eqn:Hok; [|done].
    exfalso. apply Hcron. unfold is_cron. rewrite Hs. by do 5 eexists.
  - destruct (Py.startswith s "interval ") eqn:Hpre; [|done].
    destruct (Py.split s !! 1%nat) as [tok|] eqn:Htok; [|done].
    destruct (Py.int tok) as [n|] eqn:Hn; [|done].
    destruct (interval_accepts n) eqn:Hacc; [|done].
    exfalso. apply Hint. split; [done|]. by exists tok, n.
Qed.

End Parser.

(** ** Claims about [add_task] *)

Section Binding.
Context `{TriggerLib}.

(** On integers that bind, and with a row id left, the call is the method
    as defined above. *)
Lemma called_add_task_fits now ty pr sched rc mr manual st :
  int64 rc → int64 mr → int64 (lastrowid st) →
  Called.add_task now ty pr sched rc mr manual st
  = add_task now ty pr sched rc mr manual st.
Proof.
  intros Hrc Hmr Hid. unfold Called.add_task.
  destruct (decide (pr ∈ TASK_PRIORITIES)); [|done].
  rewrite decide_True by done. by rewrite decide_True.
Qed.

(** A counter that does not fit makes the INSERT raise: nothing is stored
    and nothing is scheduled. *)
Lemma called_add_task_overflow now ty pr sched rc mr manual st :
  pr ∈ TASK_PRIORITIES → ¬ (int64 rc ∧ int64 mr) →
  Called.add_task now ty pr sched rc mr manual st = Raise OverflowError st.
Proof.
  intros Hpr Hno. unfold Called.add_task.
  rewrite decide_True by done. by rewrite decide_False.
Qed.

Lemma called_add_task_full now ty pr sched rc mr manual st :
  pr ∈ TASK_PRIORITIES → int64 rc → int64 mr → ¬ int64 (lastrowid st) →
  Called.add_task now ty pr sched rc mr manual st = Raise OperationalError st.
Proof.
  intros Hpr Hrc Hmr Hno. unfold Called.add_task.
  rewrite decide_True by done. rewrite decide_True by done.
  by rewrite decide_False.
Qed.

End Binding.

Lemma called_trigger_task_fits ts te body tid st :
  int64 tid →
  Called.trigger_task ts te body tid st = trigger_task ts te body tid st.
Proof. intros Hid. unfold Called.trigger_task. by rewrite decide_True. Qed.

Lemma called_trigger_task_overflow ts te body tid st :
  ¬ int64 tid →
  Called.trigger_task ts te body tid st = Raise OverflowError st.
Proof. intros Hid. unfold Called.trigger_task. by rewrite decide_False. Qed.

Lemma called_cancel_task_fits now tid st :
  int64 tid →
  Called.cancel_task now tid st = Ok true (cancel_task now tid st).2.
Proof. intros Hid. unfold Called.cancel_task. by rewrite decide_True. Qed.

Lemma called_cancel_task_overflow now tid st :
  ¬ int64 tid →
  Called.cancel_task now tid st
  = Raise OverflowError (with_jobs (delete (job_id tid)) st).
Proof. intros Hid. unfold Called.cancel_task. by rewrite decide_False. Qed.

(** C1 (amended): for every valid priority, every [retry_count] and
    [max_retries] that fit a signed 64-bit integer, and a table [tasks]
    whose next row id is below [2^63], [add_task] persists exactly one new
    task row, with status pending and the [retry_count] the caller passed,
    and returns the new row's id; [get_task_status] on that id then reports
    status pending, the schedule as given and that [retry_count]. *)
Theorem add_task_persists_pending_row `{TriggerLib} now ty pr sched rc mr
    manual st :
  pr ∈ TASK_PRIORITIES →
  int64 rc → int64 mr → int64 (lastrowid st) →
  ∃ tid st' row,
    Called.add_task now ty pr sched rc mr manual st = Ok tid st' ∧
    tasks st !! tid = None ∧
    tasks st' = <[tid := row]> (tasks st) ∧
    id row = tid ∧ status row = pending ∧ retry_count row = rc ∧
    get_task_status tid st' = Some row ∧
    status <$> get_task_status tid st' = Some pending ∧
    schedule <$> get_task_status tid st' = Some sched ∧
    retry_count <$> get_task_status tid st' = Some rc.
Proof.
  intros Hpr Hrc Hmr Hid. rewrite called_add_task_fits by done.
  destruct (add_task_valid now ty pr sched rc mr manual st Hpr)
    as (st' & Hok & Htasks & _).
  exists (lastrowid st), st', (new_row (lastrowid st) now ty pr sched rc mr).
  assert (get_task_status (lastrowid st) st'
          = Some (new_row (lastrowid st) now ty pr sched rc mr)) as Hget.
  { unfold get_task_status. rewrite Htasks. apply lookup_insert_eq. }
  rewrite Hget. split_and!; try done. apply lastrowid_fresh.
Qed.

Lemma add_task_persists_pending_row_witness :
  "critical" ∈ TASK_PRIORITIES ∧
  int64 0 ∧ int64 3 ∧ int64 (lastrowid init) ∧
  ∃ tid st' row,
    Called.add_task (H := simple_triggers) "t0" "nightly_extraction"
      "critical" (Some "0 23 * * *") 0 3 false init = Ok tid st' ∧
    tasks init !! tid = None ∧
    tasks st' = <[tid := row]> (tasks init) ∧
    id row = tid ∧ status row = pending ∧ retry_count row = 0 ∧
    get_task_status tid st' = Some row ∧
    status <$> get_task_status tid st' = Some pending ∧
    schedule <$> get_task_status tid st' = Some (Some "0 23 * * *") ∧
    retry_count <$> get_task_status tid st' = Some 0.
Proof.
  assert ("critical" ∈ TASK_PRIORITIES) as Hpr
    by (by_compute).
  assert (int64 0) as Hrc by (vm_compute; split; [discriminate | reflexivity]).
  assert (int64 3) as Hmr by (vm_compute; split; [discriminate | reflexivity]).
  assert (int64 (lastrowid init)) as Hid
    by (vm_compute; split; [discriminate | reflexivity]).
  refine (conj Hpr (conj Hrc (conj Hmr (conj Hid _)))).
  exact (add_task_persists_pending_row (H := simple_triggers) "t0"
           "nightly_extraction" "critical" (Some "0 23 * * *") 0 3 false
           init Hpr Hrc Hmr Hid).
Defined.

(** C1 as stated fails: the row carries the [retry_count] argument, here 1,
    not 0. *)
Lemma add_task_keeps_given_retry_count :
  "critical" ∈ TASK_PRIORITIES ∧
  ∃ st',
    Called.add_task (H := simple_triggers) "t0" "nightly_extraction"
      "critical" (Some "0 23 * * *") 1 3 false init = Ok 1 st' ∧
    retry_count <$> get_task_status 1 st' = Some 1 ∧
    retry_count <$> get_task_status 1 st' ≠ Some 0.
Proof.
  split; [by_compute|].
  eexists. split; [vm_compute; reflexivity|].
  split; [vm_compute; reflexivity | vm_compute; discriminate].
Qed.

(** C8: a priority outside low, normal, high, critical makes [add_task]
    raise [ValueError], and the scheduler it leaves is the one it found: no
    row inserted, no trigger registered. *)
Theorem add_task_rejects_unknown_priority `{TriggerLib} now ty pr sched rc
    mr manual st :
  pr ∉ TASK_PRIORITIES →
  ∃ msg, add_task now ty pr sched rc mr manual st = Raise (ValueError msg) st
         ∧ tasks (state_of (add_task now ty pr sched rc mr manual st))
           = tasks st
         ∧ jobs (state_of (add_task now ty pr sched rc mr manual st))
           = jobs st.
Proof.
  intros Hpr. rewrite add_task_invalid by done. by eexists.
Qed.

Lemma add_task_rejects_unknown_priority_witness :
  ("urgent" ∉ TASK_PRIORITIES) ∧
  ∃ msg,
    add_task (H := simple_triggers) "t0" "job" "urgent" (Some "interval 5")
      0 3 false eg_registered = Raise (ValueError msg) eg_registered
    ∧ tasks (state_of (add_task (H := simple_triggers) "t0" "job" "urgent"
                         (Some "interval 5") 0 3 false eg_registered))
      = tasks eg_registered
    ∧ jobs (state_of (add_task (H := simple_triggers) "t0" "job" "urgent"
                        (Some "interval 5") 0 3 false eg_registered))
      = jobs eg_registered.
Proof.
  assert ("urgent" ∉ TASK_PRIORITIES) as Hpr
    by (by_compute).
  split; [exact Hpr|].
  exact (add_task_rejects_unknown_priority (H := simple_triggers) "t0" "job"
           "urgent" (Some "interval 5") 0 3 false eg_registered Hpr).
Defined.

(** C5 (amended): for a valid priority, a [retry_count] and a
    [max_retries] that fit a signed 64-bit integer and a table [tasks]
    whose next row id is below [2^63]: when the schedule parses and the
    caller did not ask for manual-only mode, [add_task] registers the
    trigger under the job id of the new task provided a body is registered
    for the task type at that moment; for a type without a registered body
    the job store is left as it was. *)
Theorem add_task_registers_trigger `{TriggerLib} now ty pr s trig rc mr st :
  pr ∈ TASK_PRIORITIES →
  int64 rc → int64 mr → int64 (lastrowid st) →
  _parse_schedule s = Some trig →
  ∃ tid st',
    Called.add_task now ty pr (Some s) rc mr false st = Ok tid st' ∧
    (ty ∈ dom (task_functions st) →
       jobs st' !! job_id tid
       = Some {| job_trigger := trig; job_args := (tid, ty);
                 job_name := ty +:+ "_" +:+ pretty tid |}
       ∧ jobs st' = <[job_id tid := new_job tid ty trig]> (jobs st)) ∧
    (ty ∉ dom (task_functions st) → jobs st' = jobs st).
Proof.
  intros Hpr Hrc Hmr Hid Hparse. rewrite called_add_task_fits by done.
  destruct (add_task_valid now ty pr (Some s) rc mr false st Hpr)
    as (st' & Hok & _ & _ & _ & Hjobs).
  exists (lastrowid st), st'. split; [done|].
  unfold scheduled_trigger in Hjobs.
  rewrite (parse_truthy _ _ Hparse) in Hjobs. simpl in Hjobs.
  split; intros Hreg.
  - rewrite bool_decide_eq_true_2, Hparse in Hjobs by done.
    rewrite Hjobs. split; [apply lookup_insert_eq | done].
  - by rewrite bool_decide_eq_false_2 in Hjobs.
Qed.

Lemma add_task_registers_trigger_witness :
  "critical" ∈ TASK_PRIORITIES ∧
  int64 0 ∧ int64 3 ∧ int64 (lastrowid eg_registered) ∧
  _parse_schedule (H := simple_triggers) "interval 5"
  = Some (IntervalTrigger 5) ∧
  ∃ tid st',
    Called.add_task (H := simple_triggers) "t0" "job" "critical"
      (Some "interval 5") 0 3 false eg_registered = Ok tid st' ∧
    ("job" ∈ dom (task_functions eg_registered) →
       jobs st' !! job_id tid
       = Some {| job_trigger := IntervalTrigger 5; job_args := (tid, "job");
                 job_name := "job" +:+ "_" +:+ pretty tid |}
       ∧ jobs st'
         = <[job_id tid := new_job tid "job" (IntervalTrigger 5)]>
             (jobs eg_registered)) ∧
    ("job" ∉ dom (task_functions eg_registered) →
       jobs st' = jobs eg_registered).
Proof.
  assert ("critical" ∈ TASK_PRIORITIES) as Hpr by by_compute.
  assert (int64 0) as Hrc by (vm_compute; split; [discriminate | reflexivity]).
  assert (int64 3) as Hmr by (vm_compute; split; [discriminate | reflexivity]).
  assert (int64 (lastrowid eg_registered)) as Hid
    by (vm_compute; split; [discriminate | reflexivity]).
  assert (_parse_schedule (H := simple_triggers) "interval 5"
          = Some (IntervalTrigger 5)) as Hparse by (vm_compute; reflexivity).
  refine (conj Hpr (conj Hrc (conj Hmr (conj Hid (conj Hparse _))))).
  exact (add_task_registers_trigger (H := simple_triggers) "t0" "job"
           "critical" "interval 5" (IntervalTrigger 5) 0 3 eg_registered
           Hpr Hrc Hmr Hid Hparse).
Defined.

(** C5 as stated fails: with no body registered for the type, a schedule
    that parses is not handed to the job store. *)
Lemma add_task_unregistered_type_not_scheduled :
  is_Some (_parse_schedule (H := simple_triggers) "0 23 * * *") ∧
  ("nightly_extraction" ∉ dom (task_functions init)) ∧
  ∃ st',
    Called.add_task (H := simple_triggers) "t0" "nightly_extraction"
      "critical" (Some "0 23 * * *") 0 3 false init = Ok 1 st' ∧
    jobs st' = ∅.
Proof.
  split; [by eexists; vm_compute|].
  split; [by_compute|].
  eexists. split; vm_compute; reflexivity.
Qed.

(** C9 (amended): for a valid priority, a [retry_count] and a
    [max_retries] that fit a signed 64-bit integer, a table [tasks] whose
    next row id is below [2^63] and a schedule string that is neither five
    whitespace-separated fields the cron trigger accepts nor a string that
    starts with ["interval "] and has an integer second field the interval
    trigger accepts, [add_task] returns normally, the new row has status
    pending and the job store is unchanged. *)
Theorem add_task_soft_fails_on_bad_schedule `{TriggerLib} now ty pr s rc mr
    manual st :
  pr ∈ TASK_PRIORITIES →
  int64 rc → int64 mr → int64 (lastrowid st) →
  ¬ is_cron s →
  ¬ is_interval_prefix s →
  ∃ tid st' row,
    Called.add_task now ty pr (Some s) rc mr manual st = Ok tid st' ∧
    tasks st !! tid = None ∧
    tasks st' !! tid = Some row ∧ status row = pending ∧
    schedule row = Some s ∧
    jobs st' = jobs st.
Proof.
  intros Hpr Hrc Hmr Hid Hcron Hint. rewrite called_add_task_fits by done.
  destruct (add_task_valid now ty pr (Some s) rc mr manual st Hpr)
    as (st' & Hok & Htasks & _ & _ & Hjobs).
  exists (lastrowid st), st', (new_row (lastrowid st) now ty pr (Some s) rc mr).
  split_and!; try done.
  - apply lastrowid_fresh.
  - rewrite Htasks. apply lookup_insert_eq.
  - unfold scheduled_trigger in Hjobs.
    rewrite (parse_none s Hcron Hint) in Hjobs.
    by destruct (_ && _) in Hjobs.
Qed.

Lemma add_task_soft_fails_on_bad_schedule_witness :
  "normal" ∈ TASK_PRIORITIES ∧
  int64 0 ∧ int64 3 ∧ int64 (lastrowid eg_registered) ∧
  ¬ is_cron (H := simple_triggers) "every other day" ∧
  ¬ is_interval_prefix (H := simple_triggers) "every other day" ∧
  ∃ tid st' row,
    Called.add_task (H := simple_triggers) "t0" "job" "normal"
      (Some "every other day") 0 3 false eg_registered = Ok tid st' ∧
    tasks eg_registered !! tid = None ∧
    tasks st' !! tid = Some row ∧ status row = pending ∧
    schedule row = Some "every other day" ∧
    jobs st' = jobs eg_registered.
Proof.
  assert ("normal" ∈ TASK_PRIORITIES) as Hpr by by_compute.
  assert (int64 0) as Hrc by (vm_compute; split; [discriminate | reflexivity]).
  assert (int64 3) as Hmr by (vm_compute; split; [discriminate | reflexivity]).
  assert (int64 (lastrowid eg_registered)) as Hid
    by (vm_compute; split; [discriminate | reflexivity]).
  assert (¬ is_cron (H := simple_triggers) "every other day") as Hcron.
  { intros (p0 & p1 & p2 & p3 & p4 & Hsplit & _).
    vm_compute in Hsplit. discriminate. }
  assert (¬ is_interval_prefix (H := simple_triggers) "every other day")
    as Hint.
  { intros [Hpre _]. vm_compute in Hpre. discriminate. }
  refine (conj Hpr (conj Hrc (conj Hmr (conj Hid (conj Hcron (conj Hint _)))))).
  exact (add_task_soft_fails_on_bad_schedule (H := simple_triggers) "t0"
           "job" "normal" "every other day" 0 3 false eg_registered
           Hpr Hrc Hmr Hid Hcron Hint).
Defined.

(** C9 as stated fails: ["interval 5 x"] is neither five cron fields nor
    ["interval N"] with [N] an integer, yet its second field is read as the
    interval and a trigger is registered. *)
Lemma add_task_interval_with_extra_field_scheduled :
  ¬ is_cron (H := simple_triggers) "interval 5 x" ∧
  ¬ is_interval "interval 5 x" ∧
  ∃ st',
    Called.add_task (H := simple_triggers) "t0" "job" "normal"
      (Some "interval 5 x") 0 3 false eg_registered = Ok 1 st' ∧
    job_trigger <$> jobs st' !! job_id 1 = Some (IntervalTrigger 5) ∧
    jobs st' ≠ jobs eg_registered.
Proof.
  split_and!.
  - intros (p0 & p1 & p2 & p3 & p4 & Hsplit & _).
    vm_compute in Hsplit. discriminate.
  - intros (N & n & Heq & Hint). cbv in Heq.
    injection Heq as Heq. subst N. vm_compute in Hint. discriminate.
  - eexists. split; [vm_compute; reflexivity|].
    split; [vm_compute; reflexivity|].
    intros Heq. apply (f_equal (λ m : gmap string Job, m !! job_id 1)) in Heq.
    vm_compute in Heq. discriminate.
Qed.

(** ** Claims about [cancel_task] *)

(** C10 (amended): for every task id that fits a signed 64-bit integer
    and every state, [cancel_task] returns [True].  When no row has that id
    the table [tasks] is unchanged; when one has, whatever its status, that
    row alone is set to cancelled. *)
Theorem cancel_task_true_in_range now tid st :
  int64 tid →
  ∃ st',
    Called.cancel_task now tid st = Ok true st' ∧
    match tasks st !! tid with
    | None => tasks st' = tasks st
    | Some t => tasks st' = <[tid := set_status cancelled now t]> (tasks st)
    end.
Proof.
  intros Hid. exists (cancel_task now tid st).2.
  split; [by apply called_cancel_task_fits|]. simpl.
  destruct (tasks st !! tid) as [t|] eqn:Ht.
  - by apply alter_present.
  - by apply alter_id'.
Qed.

Lemma cancel_task_true_in_range_witness :
  int64 7 ∧
  ∃ st',
    Called.cancel_task "t1" 7 (eg_added 0 3) = Ok true st' ∧
    match tasks (eg_added 0 3) !! 7 with
    | None => tasks st' = tasks (eg_added 0 3)
    | Some t =>
        tasks st' = <[7 := set_status cancelled "t1" t]> (tasks (eg_added 0 3))
    end.
Proof.
  assert (int64 7) as Hid by (vm_compute; split; [discriminate | reflexivity]).
  split; [exact Hid|].
  exact (cancel_task_true_in_range "t1" 7 (eg_added 0 3) Hid).
Defined.

(** C10 as stated fails: the id [2^63] does not bind in the UPDATE, so the
    call raises [OverflowError] and returns nothing. *)
Lemma cancel_task_raises_on_wide_id :
  Called.cancel_task "t1" (2 ^ 63) (eg_added 0 3)
  = Raise OverflowError (eg_added 0 3) ∧
  ∀ st', Called.cancel_task "t1" (2 ^ 63) (eg_added 0 3) ≠ Ok true st'.
Proof.
  assert (Called.cancel_task "t1" (2 ^ 63) (eg_added 0 3)
          = Raise OverflowError (eg_added 0 3)) as Hraise
    by (vm_compute; reflexivity).
  split; [exact Hraise|]. intros st'. rewrite Hraise. discriminate.
Qed.

(** ** Claims about executions *)

(** C7: an execution of an existing task rewrites that row alone and
    appends exactly one log record.  If a body is registered for the type
    and it returns, the status is completed; if it fails (the body raises,
    or no body is registered) and [retry_count < max_retries],
    [retry_count] grows by one and the status is pending; if it fails and
    [retry_count >= max_retries], the status is failed.  The record's
    status is completed on success and failed otherwise. *)
Theorem execute_task_outcome ts te body tid ty st t :
  tasks st !! tid = Some t →
  ∃ st' t' l,
    _execute_task ts te body tid ty st = Ok tt st' ∧
    tasks st' = <[tid := t']> (tasks st) ∧
    task_logs st' = (task_logs st ++ [l])%list ∧
    log_task_id l = tid ∧
    max_retries t' = max_retries t ∧
    (ty ∈ dom (task_functions st) → body = Returns →
       status t' = completed ∧ retry_count t' = retry_count t ∧
       log_status l = completed) ∧
    (ty ∉ dom (task_functions st) ∨ (∃ e, body = Raises e) →
     retry_count t < max_retries t →
       status t' = pending ∧ retry_count t' = retry_count t + 1 ∧
       log_status l = failed) ∧
    (ty ∉ dom (task_functions st) ∨ (∃ e, body = Raises e) →
     max_retries t ≤ retry_count t →
       status t' = failed ∧ retry_count t' = retry_count t ∧
       log_status l = failed).
Proof.
  intros Ht.
  destruct (execute_task_present ts te body tid ty st t Ht)
    as (st' & Hok & Htasks & Hlogs & _).
  exists st', (executed ts te (run_body ty body st).1 t),
    (execution_log ts te tid (run_body ty body st)).
  assert (ty ∉ dom (task_functions st) ∨ (∃ e, body = Raises e) →
          (run_body ty body st).1 = false) as Hfail.
  { unfold run_body. intros [Hno|[e ->]].
    - by rewrite decide_False.
    - by destruct (decide _). }
  split_and!; try done.
  - unfold executed. by destruct (_ && _).
  - intros Hreg ->. unfold executed, execution_log, run_body.
    by rewrite decide_True.
  - intros Hs Hlt. unfold executed, execution_log. rewrite (Hfail Hs). simpl.
    apply Z.ltb_lt in Hlt. by rewrite Hlt.
  - intros Hs Hge. unfold executed, execution_log. rewrite (Hfail Hs). simpl.
    assert ((retry_count t <? max_retries t) = false) as ->
      by (apply Z.ltb_ge; lia).
    done.
Qed.

Lemma execute_task_outcome_witness :
  tasks (eg_added 0 3) !! 1 = Some (new_row 1 "t0" "job" "normal" None 0 3) ∧
  ∃ st' t' l,
    _execute_task "t1" "t2" (Raises "boom") 1 "job" (eg_added 0 3)
    = Ok tt st' ∧
    tasks st' = <[1 := t']> (tasks (eg_added 0 3)) ∧
    task_logs st' = (task_logs (eg_added 0 3) ++ [l])%list ∧
    log_task_id l = 1 ∧
    max_retries t' = 3 ∧
    ("job" ∈ dom (task_functions (eg_added 0 3)) → Raises "boom" = Returns →
       status t' = completed ∧ retry_count t' = 0 ∧
       log_status l = completed) ∧
    ("job" ∉ dom (task_functions (eg_added 0 3))
     ∨ (∃ e, Raises "boom" = Raises e) →
     0 < 3 →
       status t' = pending ∧ retry_count t' = 0 + 1 ∧
       log_status l = failed) ∧
    ("job" ∉ dom (task_functions (eg_added 0 3))
     ∨ (∃ e, Raises "boom" = Raises e) →
     3 ≤ 0 →
       status t' = failed ∧ retry_count t' = 0 ∧
       log_status l = failed).
Proof.
  assert (tasks (eg_added 0 3) !! 1
          = Some (new_row 1 "t0" "job" "normal" None 0 3)) as Ht
    by (vm_compute; reflexivity).
  split; [exact Ht|].
  exact (execute_task_outcome "t1" "t2" (Raises "boom") 1 "job"
           (eg_added 0 3) _ Ht).
Defined.

(** C2, on the code: a task added with the default arguments starts with
    [retry_count = 3 = max_retries], so its first failing execution already
    ends in status failed, with [retry_count] still 3. *)
Theorem default_task_fails_without_retry :
  ∃ st1 st2,
    add_task (H := simple_triggers) "t0" "job" default_priority
      default_schedule default_retry_count 3 default_manual_trigger
      eg_registered = Ok 1 st1 ∧
    _execute_task "t1" "t2" (Raises "boom") 1 "job" st1 = Ok tt st2 ∧
    status <$> get_task_status 1 st2 = Some failed ∧
    retry_count <$> get_task_status 1 st2 = Some 3 ∧
    status <$> get_task_status 1 st2 ≠ Some pending ∧
    retry_count <$> get_task_status 1 st2 ≠ Some 1.
Proof.
  do 2 eexists.
  split; [vm_compute; reflexivity|].
  split; [vm_compute; reflexivity|].
  split_and!; vm_compute; (reflexivity || discriminate).
Qed.

(** The retry logic itself does what C2 describes once the row starts from
    [retry_count = 0]: three failures leave pending with counts 1, 2, 3,
    and the fourth leaves failed. *)
Lemma retry_sequence_from_zero :
  let run1 st := state_of (_execute_task "t1" "t2" (Raises "boom") 1 "job" st) in
  let view st := (λ t, (status t, retry_count t)) <$> get_task_status 1 st in
  let s1 := run1 (eg_added 0 3) in
  let s2 := run1 s1 in
  let s3 := run1 s2 in
  let s4 := run1 s3 in
  view s1 = Some (pending, 1) ∧ view s2 = Some (pending, 2) ∧
  view s3 = Some (pending, 3) ∧ view s4 = Some (failed, 3).
Proof. vm_compute. by repeat split. Qed.

(** ** Claims about [trigger_task] *)

(** C6 (amended): for a task id that fits a signed 64-bit integer,
    [trigger_task] returns [False] and leaves the scheduler untouched
    exactly when no row has the id or the row's status is cancelled or
    completed; on every other row, a failed one included, it runs
    [_execute_task] on it and returns [True]. *)
Theorem trigger_task_result ts te body tid st :
  int64 tid →
  ((tasks st !! tid = None ∨
    ∃ t, tasks st !! tid = Some t ∧ status t ∈ [cancelled; completed]) ∧
   Called.trigger_task ts te body tid st = Ok false st)
  ∨
  (∃ t st',
     tasks st !! tid = Some t ∧ status t ∈ [pending; running; failed] ∧
     _execute_task ts te body tid (task_type t) st = Ok tt st' ∧
     Called.trigger_task ts te body tid st = Ok true st' ∧
     tasks st' = <[tid := executed ts te (run_body (task_type t) body st).1 t]>
                   (tasks st)).
Proof.
  intros Hid. rewrite called_trigger_task_fits by done.
  unfold trigger_task.
  destruct (tasks st !! tid) as [t|] eqn:Ht; [|left; by split; [left|]].
  destruct (decide (status t ∈ [cancelled; completed])) as [Hin|Hnin].
  - left. split; [right; by exists t | done].
  - right.
    destruct (execute_task_present ts te body tid (task_type t) st t Ht)
      as (st' & Hok & Htasks & _).
    exists t, st'. rewrite Hok. split_and!; try done.
    destruct (status t); set_solver.
Qed.

Lemma trigger_task_result_witness :
  int64 1 ∧
  (((tasks (eg_added 0 3) !! 1 = None ∨
     ∃ t, tasks (eg_added 0 3) !! 1 = Some t ∧
          status t ∈ [cancelled; completed]) ∧
    Called.trigger_task "t1" "t2" Returns 1 (eg_added 0 3)
    = Ok false (eg_added 0 3))
   ∨
   (∃ t st',
      tasks (eg_added 0 3) !! 1 = Some t ∧
      status t ∈ [pending; running; failed] ∧
      _execute_task "t1" "t2" Returns 1 (task_type t) (eg_added 0 3)
      = Ok tt st' ∧
      Called.trigger_task "t1" "t2" Returns 1 (eg_added 0 3) = Ok true st' ∧
      tasks st'
      = <[1 := executed "t1" "t2"
                 (run_body (task_type t) Returns (eg_added 0 3)).1 t]>
          (tasks (eg_added 0 3)))).
Proof.
  assert (int64 1) as Hid by (vm_compute; split; [discriminate | reflexivity]).
  split; [exact Hid|].
  exact (trigger_task_result "t1" "t2" Returns 1 (eg_added 0 3) Hid).
Defined.

(** C6 as stated fails: a failed task is triggered again; the call returns
    [True] and the row changes. *)
Lemma trigger_task_runs_failed_task :
  status <$> get_task_status 1 (eg_ran 3 3 (Raises "boom")) = Some failed ∧
  ∃ st',
    Called.trigger_task "t3" "t4" Returns 1 (eg_ran 3 3 (Raises "boom"))
    = Ok true st' ∧
    status <$> get_task_status 1 st' = Some completed ∧
    get_task_status 1 st' ≠ get_task_status 1 (eg_ran 3 3 (Raises "boom")).
Proof.
  split; [vm_compute; reflexivity|].
  eexists. split; [vm_compute; reflexivity|].
  split; [vm_compute; reflexivity | vm_compute; discriminate].
Qed.

(** ** Rows along a history *)

Lemma executed_status ts te b t :
  status (executed ts te b t) ∈ [completed; pending; failed].
Proof.
  unfold executed. destruct b, (retry_count t <? max_retries t); simpl;
    set_solver.
Qed.

Lemma executed_not_cancelled ts te b t :
  status (executed ts te b t) ≠ cancelled.
Proof.
  unfold executed. by destruct b, (retry_count t <? max_retries t).
Qed.

Lemma executed_bounded ts te b t : bounded t → bounded (executed ts te b t).
Proof.
  unfold bounded, executed.
  destruct b, (retry_count t <? max_retries t) eqn:Hlt; simpl; lia.
Qed.

Lemma execute_task_state ts te body tid ty st :
  let st' := state_of (_execute_task ts te body tid ty st) in
  tasks st' =
    match tasks st !! tid with
    | Some t => <[tid := executed ts te (run_body ty body st).1 t]> (tasks st)
    | None => tasks st
    end ∧
  jobs st' = jobs st.
Proof.
  destruct (tasks st !! tid) as [t|] eqn:Ht.
  - destruct (execute_task_present ts te body tid ty st t Ht)
      as (st' & -> & Htasks & _ & Hjobs & _). by simpl.
  - by rewrite execute_task_absent.
Qed.

Lemma trigger_task_state ts te body tid st :
  let st' := state_of (trigger_task ts te body tid st) in
  (st' = st ∨
   ∃ t, tasks st !! tid = Some t ∧ (status t ∉ [cancelled; completed]) ∧
        tasks st' = <[tid := executed ts te (run_body (task_type t) body st).1 t]>
                      (tasks st)) ∧
  jobs st' = jobs st.
Proof.
  unfold trigger_task.
  destruct (tasks st !! tid) as [t|] eqn:Ht; [|by split; [left|]].
  destruct (decide (status t ∈ [cancelled; completed])); [by split; [left|]|].
  destruct (execute_task_present ts te body tid (task_type t) st t Ht)
    as (st' & -> & Htasks & _ & Hjobs & _). simpl.
  split; [right; by exists t | done].
Qed.

Section Rows.
Context `{TriggerLib}.

(** A row that exists stays, and only three kinds of call rewrite it. *)
Lemma run_row c st k t :
  tasks st !! k = Some t →
  tasks (run c st) !! k = Some t
  ∨ (∃ now, c = CancelTask now k ∧
       tasks (run c st) !! k = Some (set_status cancelled now t))
  ∨ (∃ ts te body b, c = TriggerTask ts te body k ∧
       (status t ∉ [cancelled; completed]) ∧
       tasks (run c st) !! k = Some (executed ts te b t))
  ∨ (∃ j ts te body b job, c = Fire j ts te body ∧
       jobs st !! j = Some job ∧ (job_args job).1 = k ∧
       tasks (run c st) !! k = Some (executed ts te b t)).
Proof.
  intros Hk. destruct c as [ty f|now ty pr sched rc mr manual
                            |ts te body tid|now tid|j ts te body]; simpl.
  - by left.
  - left. destruct (decide (pr ∈ TASK_PRIORITIES)) as [Hpr|Hpr].
    + destruct (add_task_valid now ty pr sched rc mr manual st Hpr)
        as (st' & Hok & Htasks & _). rewrite Hok. simpl. rewrite Htasks.
      rewrite lookup_insert_ne; [done|].
      intros <-. by rewrite lastrowid_fresh in Hk.
    + by rewrite add_task_invalid.
  - destruct (trigger_task_state ts te body tid st)
      as [[->|(t0 & Ht0 & Hst & ->)] _]; [by left|].
    destruct (decide (tid = k)) as [->|Hne].
    + right; right; left. rewrite Hk in Ht0. injection Ht0 as <-.
      do 4 eexists. split_and!; [done..|apply lookup_insert_eq].
    + left. by rewrite lookup_insert_ne.
  - destruct (decide (tid = k)) as [->|Hne].
    + right; left. exists now. split; [done|].
      by rewrite lookup_alter_eq, Hk.
    + left. by rewrite lookup_alter_ne.
  - destruct (jobs st !! j) as [job|] eqn:Hj; [|by left].
    destruct (execute_task_state ts te body (job_args job).1
                (job_args job).2 st) as [-> _].
    destruct (tasks st !! (job_args job).1) as [t0|] eqn:Ht0; [|by left].
    destruct (decide ((job_args job).1 = k)) as [Heq|Hne].
    + right; right; right. rewrite Heq in Ht0. rewrite Hk in Ht0.
      injection Ht0 as <-.
      do 6 eexists. split_and!; [done..|].
      rewrite Heq. apply lookup_insert_eq.
    + left. by rewrite lookup_insert_ne.
Qed.

(** A row that appears was inserted by [add_task], from its arguments. *)
Lemma run_new_row c st k t :
  tasks st !! k = None →
  tasks (run c st) !! k = Some t →
  ∃ now ty pr sched rc mr manual,
    c = AddTask now ty pr sched rc mr manual ∧
    pr ∈ TASK_PRIORITIES ∧ k = lastrowid st ∧
    t = new_row k now ty pr sched rc mr.
Proof.
  intros Hk. destruct c as [ty f|now ty pr sched rc mr manual
                            |ts te body tid|now tid|j ts te body]; simpl.
  - by rewrite Hk.
  - destruct (decide (pr ∈ TASK_PRIORITIES)) as [Hpr|Hpr].
    + destruct (add_task_valid now ty pr sched rc mr manual st Hpr)
        as (st' & Hok & Htasks & _). rewrite Hok. simpl. rewrite Htasks.
      rewrite lookup_insert. case_decide as Hid; [|by rewrite Hk].
      intros [= <-]. subst k. by do 7 eexists.
    + rewrite add_task_invalid by done. simpl. by rewrite Hk.
  - destruct (trigger_task_state ts te body tid st)
      as [[->|(t0 & Ht0 & Hst & ->)] _]; [by rewrite Hk|].
    rewrite lookup_insert. case_decide; [congruence | by rewrite Hk].
  - intros Hc.
    pose proof (proj2 (lookup_alter_None (set_status cancelled now)
                         (tasks st) tid k) Hk) as Hnone.
    congruence.
  - destruct (jobs st !! j) as [job|]; [|by rewrite Hk].
    destruct (execute_task_state ts te body (job_args job).1
                (job_args job).2 st) as [-> _].
    destruct (tasks st !! (job_args job).1) as [t0|] eqn:Ht0;
      [|by rewrite Hk].
    rewrite lookup_insert. case_decide; [congruence | by rewrite Hk].
Qed.

End Rows.

Section Reachability.
Context `{TriggerLib}.

Lemma reachable_extend ok st0 cs st :
  reachable_from ok st0 st → Forall ok cs →
  reachable_from ok st0 (run_all cs st).
Proof.
  intros Hst Hcs. revert st Hst. unfold run_all.
  induction Hcs as [|c cs Hc _ IH]; intros st Hst; simpl; [exact Hst|].
  apply IH. by constructor.
Qed.

Lemma reachable_run_all ok st0 cs :
  Forall ok cs → reachable_from ok st0 (run_all cs st0).
Proof. apply reachable_extend. constructor. Qed.

Lemma jobs_live_rewritten st st' k t t' :
  jobs_live st →
  tasks st !! k = Some t →
  status t' ≠ cancelled →
  tasks st' = <[k := t']> (tasks st) →
  jobs st' = jobs st →
  jobs_live st'.
Proof.
  intros Hlive Hk Hst Htasks Hjobs j job Hj. rewrite Hjobs in Hj.
  destruct (Hlive j job Hj) as [Hid (t0 & Ht0 & Hnc)]. split; [done|].
  rewrite Htasks, lookup_insert.
  case_decide; [by exists t' | by exists t0].
Qed.

Lemma jobs_live_run c st : jobs_live st → jobs_live (run c st).
Proof.
  intros Hlive. destruct c as [ty f|now ty pr sched rc mr manual
                               |ts te body tid|now tid|j0 ts te body].
  - exact Hlive.
  - simpl. destruct (decide (pr ∈ TASK_PRIORITIES)) as [Hpr|Hpr];
      [|by rewrite add_task_invalid].
    destruct (add_task_valid now ty pr sched rc mr manual st Hpr)
      as (st' & Hok & Htasks & _ & _ & Hjobs). rewrite Hok. simpl.
    intros j job Hj.
    assert (jobs st !! j = Some job ∨
            j = job_id (lastrowid st) ∧
            (job_args job).1 = lastrowid st) as [Hold|[-> Hnew]].
    { destruct (scheduled_trigger ty sched manual st) as [trig|];
        rewrite Hjobs in Hj; [|by left].
      rewrite lookup_insert in Hj.
      case_decide; [right; by injection Hj as <- | by left]. }
    + destruct (Hlive j job Hold) as [Hid (t & Ht & Hnc)]. split; [done|].
      exists t. split; [|done]. rewrite Htasks, lookup_insert_ne; [done|].
      intros Heq. rewrite <- Heq in Ht. by rewrite lastrowid_fresh in Ht.
    + split; [by rewrite Hnew|]. rewrite Hnew, Htasks.
      eexists. split; [apply lookup_insert_eq | done].
  - simpl. destruct (trigger_task_state ts te body tid st)
      as [[->|(t & Ht & _ & Htasks)] Hjobs]; [done|].
    eapply jobs_live_rewritten; [done..| |done|done].
    apply executed_not_cancelled.
  - simpl. intros j job Hj. simpl in Hj.
    rewrite lookup_delete in Hj. case_decide as Hne; [done|].
    destruct (Hlive j job Hj) as [Hid (t & Ht & Hnc)]. split; [done|].
    exists t. split; [|done]. simpl. rewrite lookup_alter_ne; [done|].
    intros ->. by apply Hne.
  - simpl. destruct (jobs st !! j0) as [job0|] eqn:Hj0; [|done].
    destruct (Hlive j0 job0 Hj0) as [_ (t & Ht & _)].
    destruct (execute_task_state ts te body (job_args job0).1
                (job_args job0).2 st) as [Htasks Hjobs].
    rewrite Ht in Htasks.
    eapply jobs_live_rewritten; [done..| |done|done].
    apply executed_not_cancelled.
Qed.

(** [add_job] never meets its job id in the store: the id of a new row
    is larger than the id of every row a job points at. *)
Lemma add_job_never_conflicts st :
  jobs_live st → jobs st !! job_id (lastrowid st) = None.
Proof.
  intros Hlive.
  destruct (jobs st !! job_id (lastrowid st)) as [job|] eqn:Hj; [|done].
  destruct (Hlive _ _ Hj) as [Hid (t & Ht & _)].
  unfold job_id in Hid. apply (inj (String.append "task_")) in Hid.
  apply (inj pretty) in Hid. rewrite <- Hid in Ht.
  by rewrite lastrowid_fresh in Ht.
Qed.

Lemma reachable_jobs_live ok st0 st :
  jobs st0 = ∅ → reachable_from ok st0 st → jobs_live st.
Proof.
  intros Hempty Hreach. induction Hreach as [|c st _ IH _].
  - intros j job Hj. by rewrite Hempty, lookup_empty in Hj.
  - by apply jobs_live_run.
Qed.

End Reachability.

(** ** Claims about whole histories *)

(** C4 (amended): along every history whose [add_task] calls are given
    [0 <= retry_count <= max_retries], every task row satisfies
    [0 <= retry_count <= max_retries], provided the rows the history
    starts from do. *)
Theorem retry_count_within_bounds `{TriggerLib} st0 st tid t :
  (∀ k r, tasks st0 !! k = Some r → bounded r) →
  reachable_from add_args_bounded st0 st →
  tasks st !! tid = Some t →
  0 ≤ retry_count t ≤ max_retries t.
Proof.
  intros Hstart Hreach. revert tid t.
  induction Hreach as [|c st _ IH Hc]; [exact Hstart|].
  intros tid t Ht. change (bounded t).
  destruct (tasks st !! tid) as [t0|] eqn:Hold.
  - specialize (IH tid t0 Hold). fold (bounded t0) in IH.
    destruct (run_row c st tid t0 Hold)
      as [Hsame|[(now & _ & Hrow)|[(ts & te & body & b & _ & _ & Hrow)
         |(j & ts & te & body & b & job & _ & _ & _ & Hrow)]]];
      rewrite Ht in *; simplify_eq; try done.
    + by apply executed_bounded.
    + by apply executed_bounded.
  - destruct (run_new_row c st tid t Hold Ht)
      as (now & ty & pr & sched & rc & mr & manual & -> & _ & _ & ->).
    exact Hc.
Qed.

Lemma retry_count_within_bounds_witness :
  (∀ k r, tasks init !! k = Some r → bounded r) ∧
  reachable_from (H := simple_triggers) add_args_bounded init
    (eg_ran 0 3 (Raises "boom")) ∧
  tasks (eg_ran 0 3 (Raises "boom"))
    !! 1
  = Some (executed "t1" "t2" false (new_row 1 "t0" "job" "normal" None 0 3)) ∧
  0 ≤ retry_count
        (executed "t1" "t2" false (new_row 1 "t0" "job" "normal" None 0 3))
    ≤ max_retries
        (executed "t1" "t2" false (new_row 1 "t0" "job" "normal" None 0 3)).
Proof.
  assert (∀ k r, tasks init !! k = Some r → bounded r) as Hstart.
  { intros k r Hk. simpl in Hk. rewrite lookup_empty in Hk. discriminate. }
  assert (reachable_from (H := simple_triggers) add_args_bounded init
            (eg_ran 0 3 (Raises "boom"))) as Hreach.
  { apply reachable_run_all. repeat constructor; simpl; lia. }
  assert (tasks (eg_ran 0 3 (Raises "boom")) !! 1
          = Some (executed "t1" "t2" false
                    (new_row 1 "t0" "job" "normal" None 0 3))) as Hrow
    by (vm_compute; reflexivity).
  refine (conj Hstart (conj Hreach (conj Hrow _))).
  exact (retry_count_within_bounds (H := simple_triggers) init _ 1 _
           Hstart Hreach Hrow).
Defined.

(** C4 as stated fails: [add_task] accepts [retry_count = 5] with
    [max_retries = 3] and stores the row as given. *)
Lemma add_task_accepts_retry_count_above_max :
  ∃ st t,
    reachable_from (H := simple_triggers) any_call init st ∧
    tasks st !! 1 = Some t ∧
    ¬ (0 ≤ retry_count t ≤ max_retries t).
Proof.
  exists (run (H := simple_triggers)
            (AddTask "t0" "job" "normal" None 5 3 false) init).
  eexists. split; [by repeat constructor|].
  split; [vm_compute; reflexivity|]. simpl. lia.
Qed.

Lemma job_id_inj k k' : job_id k = job_id k' → k = k'.
Proof.
  unfold job_id. intros Heq.
  by apply (inj (String.append "task_")), (inj pretty) in Heq.
Qed.

(** A cancelled status admits no move. *)
Lemma transition_cancelled st tid c s' :
  transition st tid c cancelled s' → s' = cancelled.
Proof.
  destruct c as [ty f|now ty pr sched rc mr manual
                 |ts te body k|now k|j ts te body]; simpl; try done.
  - case_decide as Hd; [|done]. destruct Hd as [_ Hnot].
    destruct Hnot. by left.
  - by case_decide.
  - case_decide; [|done]. by intros [? _].
Qed.

(** C3 (amended): in every state reached from a scheduler with an empty
    job store, a further call moves the status of an existing row only as
    follows: [cancel_task] on its id sets cancelled, from any status;
    [trigger_task] on its id, when the status is neither cancelled nor
    completed, and a firing of the job stored under its own job id, which
    is only there while the row is not cancelled, run it to completed,
    pending or failed; every other call (on another id, a firing of
    another or an absent job, a refused [trigger_task], a registration, an
    [add_task]) leaves the status as it is.  So a cancelled status is never
    changed again, while completed and failed ones can be.  An execution of
    the row first marks it running and ends in completed, pending or
    failed. *)
Theorem status_follows_machine `{TriggerLib} st0 st c tid t :
  jobs st0 = ∅ →
  reachable_from any_call st0 st →
  tasks st !! tid = Some t →
  (∃ t', tasks (run c st) !! tid = Some t' ∧
         transition st tid c (status t) (status t') ∧
         (status t = cancelled → status t' = cancelled)) ∧
  (∀ ts te body ty,
     ∃ st' t',
       _execute_task ts te body tid ty st = Ok tt st' ∧
       status <$> tasks (mark_running ts tid st) !! tid = Some running ∧
       tasks st' !! tid = Some t' ∧
       status t' ∈ [completed; pending; failed]).
Proof.
  intros Hempty Hreach Ht.
  pose proof (reachable_jobs_live _ _ _ Hempty Hreach) as Hlive.
  split.
  - assert (∃ t', tasks (run c st) !! tid = Some t' ∧
                  transition st tid c (status t) (status t')) as (t' & Ht' & Hmove).
    { destruct c as [ty f|now ty pr sched rc mr manual
                     |ts te body k|now k|j ts te body].
      - by exists t.
      - exists t. split; [|done].
        destruct (run_row (AddTask now ty pr sched rc mr manual) st tid t Ht)
          as [Hsame|[(? & ? & _)|[(? & ? & ? & ? & ? & _)
             |(? & ? & ? & ? & ? & ? & ? & _)]]]; done.
      - simpl. unfold trigger_task.
        destruct (decide (k = tid)) as [->|Hne].
        + rewrite Ht.
          destruct (decide (status t ∈ [cancelled; completed])) as [Hin|Hnin].
          * exists t. split; [done|]. rewrite decide_False; [done|].
            by intros [_ Hnot].
          * destruct (execute_task_present ts te body tid (task_type t) st t
                        Ht) as (st' & Hok & Htasks & _).
            rewrite Hok. simpl. eexists.
            split; [rewrite Htasks; apply lookup_insert_eq|].
            rewrite decide_True by done. apply executed_status.
        + exists t. split; [|rewrite decide_False; [done | by intros [? _]]].
          destruct (run_row (TriggerTask ts te body k) st tid t Ht)
            as [Hsame|[(? & ? & _)|[(? & ? & ? & ? & [= _ _ _ ?] & _)
               |(? & ? & ? & ? & ? & ? & ? & _)]]]; done.
      - simpl. destruct (decide (k = tid)) as [->|Hne].
        + eexists. split; [by rewrite lookup_alter_eq, Ht|done].
        + exists t. split; [by rewrite lookup_alter_ne|done].
      - simpl. destruct (jobs st !! j) as [job|] eqn:Hj.
        + destruct (Hlive j job Hj) as [Hid (t0 & Ht0 & Hnc)].
          destruct (execute_task_state ts te body (job_args job).1
                      (job_args job).2 st) as [-> _]. rewrite Ht0.
          destruct (decide ((job_args job).1 = tid)) as [Heq|Hne].
          * rewrite Heq in Ht0, Hid |- *. rewrite Ht in Ht0.
            injection Ht0 as <-. eexists.
            split; [apply lookup_insert_eq|].
            rewrite decide_True by done.
            split; [done | apply executed_status].
          * exists t. split; [by rewrite lookup_insert_ne|].
            rewrite decide_False; [done|]. intros [-> _].
            by apply job_id_inj in Hid.
        + exists t. split; [done|].
          rewrite decide_False; [done|]. by intros [_ [? ?]]. }
    exists t'. split_and!; [done..|].
    intros Hc. rewrite Hc in Hmove. by apply transition_cancelled in Hmove.
  - intros ts te body ty.
    destruct (execute_task_present ts te body tid ty st t Ht)
      as (st' & Hok & Htasks & _).
    exists st', (executed ts te (run_body ty body st).1 t).
    split_and!; [done| | |apply executed_status].
    + by rewrite (mark_running_lookup ts tid st t Ht).
    + rewrite Htasks. apply lookup_insert_eq.
Qed.

Lemma status_follows_machine_witness :
  jobs init = ∅ ∧
  reachable_from (H := simple_triggers) any_call init (eg_ran 0 3 Returns) ∧
  tasks (eg_ran 0 3 Returns) !! 1
  = Some (executed "t1" "t2" true (new_row 1 "t0" "job" "normal" None 0 3)) ∧
  (∃ t', tasks (run (H := simple_triggers) (CancelTask "t3" 1)
                  (eg_ran 0 3 Returns)) !! 1 = Some t' ∧
         transition (eg_ran 0 3 Returns) 1 (CancelTask "t3" 1)
           (status (executed "t1" "t2" true
                      (new_row 1 "t0" "job" "normal" None 0 3)))
           (status t') ∧
         (status (executed "t1" "t2" true
                    (new_row 1 "t0" "job" "normal" None 0 3)) = cancelled →
          status t' = cancelled)) ∧
  (∀ ts te body ty,
     ∃ st' t',
       _execute_task ts te body 1 ty (eg_ran 0 3 Returns) = Ok tt st' ∧
       status <$> tasks (mark_running ts 1 (eg_ran 0 3 Returns)) !! 1
       = Some running ∧
       tasks st' !! 1 = Some t' ∧
       status t' ∈ [completed; pending; failed]).
Proof.
  assert (jobs init = ∅) as Hempty by reflexivity.
  assert (reachable_from (H := simple_triggers) any_call init
            (eg_ran 0 3 Returns)) as Hreach.
  { apply reachable_run_all. repeat constructor. }
  assert (tasks (eg_ran 0 3 Returns) !! 1
          = Some (executed "t1" "t2" true
                    (new_row 1 "t0" "job" "normal" None 0 3))) as Hrow
    by (vm_compute; reflexivity).
  refine (conj Hempty (conj Hreach (conj Hrow _))).
  exact (status_follows_machine (H := simple_triggers) init
           (eg_ran 0 3 Returns) (CancelTask "t3" 1) 1 _ Hempty Hreach Hrow).
Defined.

(** C3 as stated fails: a completed task is moved to cancelled by
    [cancel_task]. *)
Lemma cancel_task_rewrites_completed :
  reachable_from (H := simple_triggers) any_call init (eg_ran 0 3 Returns) ∧
  status <$> get_task_status 1 (eg_ran 0 3 Returns) = Some completed ∧
  status <$> get_task_status 1 (cancel_task "t3" 1 (eg_ran 0 3 Returns)).2
  = Some cancelled ∧
  status <$> get_task_status 1 (cancel_task "t3" 1 (eg_ran 0 3 Returns)).2
  ≠ status <$> get_task_status 1 (eg_ran 0 3 Returns).
Proof.
  split; [apply reachable_run_all; repeat constructor|].
  split; [vm_compute; reflexivity|].
  split; [vm_compute; reflexivity | vm_compute; discriminate].
Qed.

(** * Further properties *)

(** ** [get_all_tasks] *)

Global Instance key_le_total : Total key_le.
Proof. intros a b. unfold key_le. lia. Qed.

Global Instance key_le_trans : Transitive key_le.
Proof. intros a b c. unfold key_le. lia. Qed.

Lemma sorted_rows_elem (m : gmap Z Task) k t :
  (k, t) ∈ merge_sort key_le (map_to_list m) ↔ m !! k = Some t.
Proof. by rewrite merge_sort_Permutation, elem_of_map_to_list. Qed.

Lemma sorted_rows_sorted (m : gmap Z Task) :
  StronglySorted key_le (merge_sort key_le (map_to_list m)).
Proof. apply StronglySorted_merge_sort; apply _. Qed.

Lemma sorted_rows_same_key (m : gmap Z Task) x1 x2 :
  x1 ∈ merge_sort key_le (map_to_list m) →
  x2 ∈ merge_sort key_le (map_to_list m) →
  x1.1 = x2.1 → x1 = x2.
Proof.
  destruct x1 as [k1 t1], x2 as [k2 t2]. rewrite !sorted_rows_elem.
  simpl. intros H1 H2 <-. congruence.
Qed.

(** Ascending keys are strictly ascending: a key occurs once. *)
Lemma sorted_rows_strict (m : gmap Z Task) :
  StronglySorted (λ a b : Z * Task, a.1 < b.1)
    (merge_sort key_le (map_to_list m)).
Proof.
  assert (NoDup (merge_sort key_le (map_to_list m)).*1) as Hnd.
  { rewrite merge_sort_Permutation. apply NoDup_fst_map_to_list. }
  pose proof (sorted_rows_sorted m) as Hs.
  induction Hs as [|x l Hl IH Hx]; [constructor|].
  rewrite fmap_cons in Hnd. apply NoDup_cons in Hnd as [Hnot Hnd].
  constructor; [by apply IH|].
  rewrite Forall_forall in Hx |- *. intros y Hy.
  specialize (Hx y Hy). unfold key_le in Hx.
  assert (x.1 ≠ y.1); [|lia].
  intros Heq. apply Hnot. rewrite Heq. by apply list_elem_of_fmap_2.
Qed.

Lemma rows_by_id_elem (m : gmap Z Task) t :
  t ∈ rows_by_id m ↔ ∃ k, m !! k = Some t.
Proof.
  unfold rows_by_id. rewrite list_elem_of_fmap. split.
  - intros ([k t'] & -> & Hin). exists k. by apply sorted_rows_elem.
  - intros [k Hk]. exists (k, t). split; [done|]. by apply sorted_rows_elem.
Qed.

Lemma rows_by_id_length (m : gmap Z Task) : length (rows_by_id m) = size m.
Proof.
  unfold rows_by_id.
  by rewrite length_fmap, merge_sort_Permutation, length_map_to_list.
Qed.

Lemma rows_by_id_ascending (m : gmap Z Task) :
  (∀ k t, m !! k = Some t → id t = k) →
  StronglySorted (λ a b, id a < id b) (rows_by_id m).
Proof.
  intros Hkey. unfold rows_by_id.
  assert (∀ x, x ∈ merge_sort key_le (map_to_list m) → id x.2 = x.1) as Hid.
  { intros [k t] Hx. apply sorted_rows_elem in Hx. by apply Hkey. }
  pose proof (sorted_rows_strict m) as Hs.
  induction Hs as [|x l Hl IH Hx]; [constructor|].
  rewrite fmap_cons. constructor.
  - apply IH. intros y Hy. apply Hid. by right.
  - rewrite Forall_fmap, Forall_forall in *. intros y Hy. simpl.
    rewrite (Hid x), (Hid y); [by apply Hx|by right|by left].
Qed.

Lemma StronglySorted_filter {A} (R : relation A) (P : A → Prop)
    `{∀ x, Decision (P x)} l :
  StronglySorted R l → StronglySorted R (filter P l).
Proof.
  induction 1 as [|x l Hl IH Hx]; [constructor|].
  rewrite filter_cons. case_decide; [|done].
  constructor; [done|]. rewrite Forall_forall in *.
  intros y Hy. apply list_elem_of_filter in Hy as [_ Hy]. by apply Hx.
Qed.

(** X1: [get_all_tasks] returns exactly the rows of the table whose status
    text is the filter (every row, for a filter that is [None] or empty),
    each once, by strictly ascending id. *)
Theorem get_all_tasks_sorted_selection status_filter st :
  (∀ k t, tasks st !! k = Some t → id t = k) →
  StronglySorted (λ a b, id a < id b) (get_all_tasks status_filter st) ∧
  ∀ t, t ∈ get_all_tasks status_filter st ↔
       (∃ k, tasks st !! k = Some t) ∧
       (Py.truthy status_filter = true →
        status_filter = Some (status_text (status t))).
Proof.
  intros Hkey. pose proof (rows_by_id_ascending _ Hkey) as Hs.
  unfold get_all_tasks.
  destruct status_filter as [s|]; [destruct (Py.truthy (Some s)) eqn:Htr|].
  - split; [by apply StronglySorted_filter|].
    intros t. rewrite list_elem_of_filter, rows_by_id_elem. split.
    + intros [<- Hrow]. by split.
    + intros [Hrow Hf]. split; [|done]. specialize (Hf eq_refl). congruence.
  - split; [done|]. intros t. rewrite rows_by_id_elem.
    split; [by intros Hrow; split | by intros [Hrow _]].
  - split; [done|]. intros t. rewrite rows_by_id_elem.
    split; [by intros Hrow; split | by intros [Hrow _]].
Qed.

Lemma get_all_tasks_sorted_selection_witness :
  (∀ k t, tasks (eg_ran 0 3 Returns) !! k = Some t → id t = k) ∧
  StronglySorted (λ a b, id a < id b)
    (get_all_tasks (Some "completed") (eg_ran 0 3 Returns)) ∧
  ∀ t, t ∈ get_all_tasks (Some "completed") (eg_ran 0 3 Returns) ↔
       (∃ k, tasks (eg_ran 0 3 Returns) !! k = Some t) ∧
       (Py.truthy (Some "completed") = true →
        Some "completed" = Some (status_text (status t))).
Proof.
  assert (∀ k t, tasks (eg_ran 0 3 Returns) !! k = Some t → id t = k) as Hkey.
  { intros k t. destruct (decide (k = 1)) as [->|Hne].
    - vm_compute. by intros [= <-].
    - change (tasks (eg_ran 0 3 Returns))
        with (<[1 := executed "t1" "t2" true
                        (new_row 1 "t0" "job" "normal" None 0 3)]>
                (∅ : gmap Z Task)).
      rewrite lookup_insert_ne by done. by rewrite lookup_empty. }
  split; [exact Hkey|].
  exact (get_all_tasks_sorted_selection (Some "completed")
           (eg_ran 0 3 Returns) Hkey).
Defined.

(** X2: a filter that is not empty and not the text of a status selects
    nothing: the call returns the empty list, not an error. *)
Theorem get_all_tasks_unknown_status s st :
  s ≠ "" → s ∉ status_text <$> TASK_STATUSES →
  get_all_tasks (Some s) st = [].
Proof.
  intros Hne Hs. unfold get_all_tasks.
  assert (Py.truthy (Some s) = true) as -> by by destruct s.
  apply elem_of_nil_inv. intros t Ht.
  apply list_elem_of_filter in Ht as [Heq _]. apply Hs. rewrite <- Heq.
  apply list_elem_of_fmap. exists (status t). split; [done|].
  unfold TASK_STATUSES. destruct (status t); set_solver.
Qed.

Lemma get_all_tasks_unknown_status_witness :
  "done" ≠ "" ∧ ("done" ∉ status_text <$> TASK_STATUSES) ∧
  get_all_tasks (Some "done") (eg_ran 0 3 Returns) = [].
Proof.
  assert ("done" ≠ "") as Hne by discriminate.
  assert ("done" ∉ status_text <$> TASK_STATUSES) as Hs by by_compute.
  refine (conj Hne (conj Hs _)).
  exact (get_all_tasks_unknown_status "done" (eg_ran 0 3 Returns) Hne Hs).
Defined.

(** A new key above all others goes last. *)
Lemma sorted_rows_insert_last (m : gmap Z Task) n r :
  (∀ k t, m !! k = Some t → k < n) →
  merge_sort key_le (map_to_list (<[n := r]> m))
  = (merge_sort key_le (map_to_list m) ++ [(n, r)])%list.
Proof.
  intros Hmax.
  assert (m !! n = None) as Hfresh.
  { destruct (m !! n) as [t|] eqn:Hn; [|done]. apply Hmax in Hn. lia. }
  assert (merge_sort key_le (map_to_list (<[n := r]> m))
          ≡ₚ (merge_sort key_le (map_to_list m) ++ [(n, r)])%list) as Hperm.
  { rewrite !merge_sort_Permutation, map_to_list_insert by done.
    by rewrite Permutation_cons_append. }
  refine (StronglySorted_unique_strong key_le _ _ _ (sorted_rows_sorted _) _
            Hperm).
  - intros x1 x2 H1 H2 Hle1 Hle2. rewrite <- Hperm in H2.
    apply (sorted_rows_same_key _ _ _ H1 H2). unfold key_le in *. lia.
  - apply StronglySorted_app_2;
      [|apply sorted_rows_sorted|by repeat constructor].
    intros [k t] x2 H1 ->%list_elem_of_singleton.
    apply sorted_rows_elem, Hmax in H1. unfold key_le. simpl. lia.
Qed.

Lemma rows_below_lastrowid st k t :
  tasks st !! k = Some t → k < lastrowid st.
Proof. intros Hk. apply max_rowid_ge in Hk. unfold lastrowid. lia. Qed.

(** X3: after a successful [add_task] the listing is the one before with the
    new row appended when the filter selects pending rows (or all rows),
    and the one before otherwise. *)
Theorem add_task_appends_to_listing `{TriggerLib} now ty pr sched rc mr
    manual status_filter st :
  pr ∈ TASK_PRIORITIES →
  ∃ tid st' row,
    add_task now ty pr sched rc mr manual st = Ok tid st' ∧
    get_task_status tid st' = Some row ∧
    get_all_tasks None st' = (get_all_tasks None st ++ [row])%list ∧
    get_all_tasks status_filter st'
    = (get_all_tasks status_filter st
       ++ (if decide (Py.truthy status_filter = true ∧
                      status_filter ≠ Some "pending")
           then [] else [row]))%list.
Proof.
  intros Hpr.
  destruct (add_task_valid now ty pr sched rc mr manual st Hpr)
    as (st' & Hok & Htasks & _).
  exists (lastrowid st), st', (new_row (lastrowid st) now ty pr sched rc mr).
  assert (rows_by_id (tasks st')
          = (rows_by_id (tasks st)
             ++ [new_row (lastrowid st) now ty pr sched rc mr])%list) as Hrows.
  { unfold rows_by_id. rewrite Htasks, sorted_rows_insert_last.
    - by rewrite fmap_app.
    - intros k t. apply rows_below_lastrowid. }
  split_and!; [done| |done|].
  - unfold get_task_status. rewrite Htasks. apply lookup_insert_eq.
  - unfold get_all_tasks.
    destruct status_filter as [s|]; [destruct (Py.truthy (Some s)) eqn:Htr|].
    + rewrite Hrows, filter_app. f_equal.
      rewrite filter_cons, filter_nil. simpl.
      destruct (decide ("pending" = s)) as [<-|Hs].
      * rewrite decide_False; [done | by intros [_ Hn]].
      * rewrite decide_True; [done|]. split; [done|]. congruence.
    + rewrite decide_False; [done | intros [Ht _]; congruence].
    + rewrite decide_False; [done | by intros [Ht _]].
Qed.

Lemma add_task_appends_to_listing_witness :
  "high" ∈ TASK_PRIORITIES ∧
  ∃ tid st' row,
    add_task (H := simple_triggers) "t5" "job" "high" None 0 3 false
      (eg_ran 0 3 Returns) = Ok tid st' ∧
    get_task_status tid st' = Some row ∧
    get_all_tasks None st'
    = (get_all_tasks None (eg_ran 0 3 Returns) ++ [row])%list ∧
    get_all_tasks (Some "completed") st'
    = (get_all_tasks (Some "completed") (eg_ran 0 3 Returns)
       ++ (if decide (Py.truthy (Some "completed") = true ∧
                      Some "completed" ≠ Some "pending")
           then [] else [row]))%list.
Proof.
  assert ("high" ∈ TASK_PRIORITIES) as Hpr by by_compute.
  split; [exact Hpr|].
  exact (add_task_appends_to_listing (H := simple_triggers) "t5" "job" "high"
           None 0 3 false (Some "completed") (eg_ran 0 3 Returns) Hpr).
Defined.

(** ** What one call does to the two tables *)

Section Steps.
Context `{TriggerLib}.

(** A call leaves both tables alone, inserts one pending row, cancels one
    row, or executes one row and appends its record. *)
Lemma run_cases c st :
  (tasks (run c st) = tasks st ∧ task_logs (run c st) = task_logs st)
  ∨ (∃ now ty pr sched rc mr manual,
       c = AddTask now ty pr sched rc mr manual ∧ pr ∈ TASK_PRIORITIES ∧
       tasks (run c st)
       = <[lastrowid st := new_row (lastrowid st) now ty pr sched rc mr]>
           (tasks st) ∧
       task_logs (run c st) = task_logs st)
  ∨ (∃ now k t,
       c = CancelTask now k ∧ tasks st !! k = Some t ∧
       tasks (run c st) = <[k := set_status cancelled now t]> (tasks st) ∧
       task_logs (run c st) = task_logs st)
  ∨ (∃ ts te body k ty t,
       tasks st !! k = Some t ∧
       (c = TriggerTask ts te body k ∧ ty = task_type t ∧
        status t ∉ [cancelled; completed]
        ∨ ∃ j job, c = Fire j ts te body ∧ jobs st !! j = Some job ∧
                   job_args job = (k, ty)) ∧
       tasks (run c st)
       = <[k := executed ts te (run_body ty body st).1 t]> (tasks st) ∧
       task_logs (run c st)
       = (task_logs st ++ [execution_log ts te k (run_body ty body st)])%list).
Proof.
  destruct c as [ty f|now ty pr sched rc mr manual
                 |ts te body tid|now tid|j ts te body]; simpl.
  - by left.
  - destruct (decide (pr ∈ TASK_PRIORITIES)) as [Hpr|Hpr].
    + right; left.
      destruct (add_task_valid now ty pr sched rc mr manual st Hpr)
        as (st' & Hok & Htasks & Hlogs & _). rewrite Hok. simpl.
      by do 7 eexists.
    + left. by rewrite add_task_invalid.
  - unfold trigger_task.
    destruct (tasks st !! tid) as [t|] eqn:Ht; [|by left].
    destruct (decide (status t ∈ [cancelled; completed])); [by left|].
    destruct (execute_task_present ts te body tid (task_type t) st t Ht)
      as (st' & Hok & Htasks & Hlogs & _). rewrite Hok. simpl.
    do 3 right. exists ts, te, body, tid, (task_type t), t.
    split_and!; [done|by left|done|done].
  - destruct (tasks st !! tid) as [t|] eqn:Ht.
    + right; right; left. exists now, tid, t.
      split_and!; [done|done| |done]. by apply alter_present.
    + left. split; [|done]. by apply alter_id'.
  - destruct (jobs st !! j) as [job|] eqn:Hj; [|by left].
    destruct (tasks st !! (job_args job).1) as [t|] eqn:Ht.
    + destruct (execute_task_present ts te body (job_args job).1
                  (job_args job).2 st t Ht)
        as (st' & Hok & Htasks & Hlogs & _). rewrite Hok. simpl.
      do 3 right.
      exists ts, te, body, (job_args job).1, (job_args job).2, t.
      split_and!; [done| |done|done].
      right. exists j, job. split_and!; [done|done|by destruct (job_args job)].
    + left. by rewrite execute_task_absent.
Qed.

(** The job store and the registry after a call. *)
Lemma run_jobs c st :
  jobs (run c st) =
    match c with
    | CancelTask _ k => delete (job_id k) (jobs st)
    | AddTask now ty pr sched rc mr manual =>
        if decide (pr ∈ TASK_PRIORITIES) then
          match scheduled_trigger ty sched manual st with
          | Some trig =>
              <[job_id (lastrowid st) := new_job (lastrowid st) ty trig]>
                (jobs st)
          | None => jobs st
          end
        else jobs st
    | _ => jobs st
    end.
Proof.
  destruct c as [ty f|now ty pr sched rc mr manual
                 |ts te body tid|now tid|j ts te body]; simpl; try done.
  - destruct (decide (pr ∈ TASK_PRIORITIES)) as [Hpr|Hpr].
    + destruct (add_task_valid now ty pr sched rc mr manual st Hpr)
        as (st' & Hok & _ & _ & _ & Hjobs). by rewrite Hok.
    + by rewrite add_task_invalid.
  - by destruct (trigger_task_state ts te body tid st) as [_ ->].
  - destruct (jobs st !! j) as [job|]; [|done].
    by destruct (execute_task_state ts te body (job_args job).1
                   (job_args job).2 st) as [_ ->].
Qed.

Lemma run_task_functions c st :
  task_functions (run c st) =
    match c with
    | Register ty f => <[ty := f]> (task_functions st)
    | _ => task_functions st
    end.
Proof.
  destruct c as [ty f|now ty pr sched rc mr manual
                 |ts te body tid|now tid|j ts te body]; simpl; try done.
  - destruct (decide (pr ∈ TASK_PRIORITIES)) as [Hpr|Hpr].
    + destruct (add_task_valid now ty pr sched rc mr manual st Hpr)
        as (st' & Hok & _ & _ & Hfn & _). by rewrite Hok.
    + by rewrite add_task_invalid.
  - unfold trigger_task.
    destruct (tasks st !! tid) as [t|] eqn:Ht; [|done].
    destruct (decide (status t ∈ [cancelled; completed])); [done|].
    destruct (execute_task_present ts te body tid (task_type t) st t Ht)
      as (st' & Hok & _ & _ & _ & Hfn). by rewrite Hok.
  - destruct (jobs st !! j) as [job|]; [|done].
    destruct (tasks st !! (job_args job).1) as [t|] eqn:Ht.
    + destruct (execute_task_present ts te body (job_args job).1
                  (job_args job).2 st t Ht)
        as (st' & Hok & _ & _ & _ & Hfn). by rewrite Hok.
    + by rewrite execute_task_absent.
Qed.

End Steps.

(** ** Rows along a history, column by column *)

Lemma same_task_refl t : same_task t t.
Proof. by repeat split. Qed.

Lemma same_task_trans t1 t2 t3 :
  same_task t1 t2 → same_task t2 t3 → same_task t1 t3.
Proof. unfold same_task. intuition congruence. Qed.

Lemma same_task_executed ts te b t : same_task t (executed ts te b t).
Proof.
  unfold executed.
  destruct (negb b && (retry_count t <? max_retries t)); by repeat split.
Qed.

Lemma same_task_set_status s now t : same_task t (set_status s now t).
Proof. by repeat split. Qed.

Lemma executed_retry_count ts te b t :
  retry_count t ≤ retry_count (executed ts te b t) ≤ retry_count t + 1.
Proof.
  unfold executed.
  destruct (negb b && (retry_count t <? max_retries t)); simpl; lia.
Qed.

Lemma executed_not_running ts te b t :
  status (executed ts te b t) ≠ running.
Proof.
  unfold executed. by destruct b, (retry_count t <? max_retries t).
Qed.

Lemma executed_last_run_at ts te b t :
  last_run_at (executed ts te b t) = Some ts.
Proof.
  unfold executed. by destruct (negb b && (retry_count t <? max_retries t)).
Qed.

Section RowsAlong.
Context `{TriggerLib}.

Lemma row_step c st k t :
  tasks st !! k = Some t →
  ∃ t', tasks (run c st) !! k = Some t' ∧ same_task t t' ∧
        retry_count t ≤ retry_count t' ≤ retry_count t + 1.
Proof.
  intros Hk.
  destruct (run_row c st k t Hk)
    as [Hsame|[(now & _ & Hrow)|[(ts & te & body & b & _ & _ & Hrow)
       |(j & ts & te & body & b & job & _ & _ & _ & Hrow)]]];
    eexists; (split; [eassumption|]).
  - split; [apply same_task_refl | lia].
  - split; [apply same_task_set_status | simpl; lia].
  - split; [apply same_task_executed | apply executed_retry_count].
  - split; [apply same_task_executed | apply executed_retry_count].
Qed.

(** X4: a row is never deleted; along any history its id, task type,
    priority, schedule, [max_retries], [created_at] and [next_run_at] stay
    as [add_task] wrote them and its [retry_count] never decreases. *)
Theorem rows_persist st0 st k t :
  reachable_from any_call st0 st →
  tasks st0 !! k = Some t →
  ∃ t', tasks st !! k = Some t' ∧ same_task t t' ∧
        retry_count t ≤ retry_count t'.
Proof.
  intros Hreach Hk. induction Hreach as [|c st _ (t1 & Ht1 & Hsame & Hrc) _].
  - exists t. split_and!; [done|apply same_task_refl|lia].
  - destruct (row_step c st k t1 Ht1) as (t2 & Ht2 & Hsame2 & Hrc2).
    exists t2. split_and!; [done| |lia]. by eapply same_task_trans.
Qed.

Lemma rows_ok_run c st : rows_ok st → rows_ok (run c st).
Proof.
  intros Hok k t' Hk'.
  destruct (tasks st !! k) as [t|] eqn:Hk.
  - destruct (Hok k t Hk) as (Hid & Hpr & Hrun & Hnext).
    destruct (run_row c st k t Hk)
      as [Hsame|[(now & _ & Hrow)|[(ts & te & body & b & _ & _ & Hrow)
         |(j & ts & te & body & b & job & _ & _ & _ & Hrow)]]];
      rewrite Hk' in *; simplify_eq; try done.
    + destruct (same_task_executed ts te b t)
        as (-> & _ & -> & _ & _ & _ & ->).
      split_and!; try done. apply executed_not_running.
    + destruct (same_task_executed ts te b t)
        as (-> & _ & -> & _ & _ & _ & ->).
      split_and!; try done. apply executed_not_running.
  - destruct (run_new_row c st k t' Hk Hk')
      as (now & ty & pr & sched & rc & mr & manual & _ & Hpr & _ & ->).
    by split_and!.
Qed.

Lemma rows_ok_reachable st0 st :
  rows_ok st0 → reachable_from any_call st0 st → rows_ok st.
Proof.
  intros Hok Hreach.
  induction Hreach as [|c st _ IH _]; [done | by apply rows_ok_run].
Qed.

(** X5: rows stay well formed along any history: each sits under its own
    id, its priority is one of the four, it is not left running, and its
    [next_run_at] is never set. *)
Theorem rows_stay_well_formed st0 st k t :
  rows_ok st0 →
  reachable_from any_call st0 st →
  tasks st !! k = Some t →
  id t = k ∧ priority t ∈ TASK_PRIORITIES ∧ status t ≠ running ∧
  next_run_at t = None.
Proof. intros Hok Hreach. by apply (rows_ok_reachable st0 st). Qed.

End RowsAlong.

Lemma rows_ok_init : rows_ok init.
Proof. intros k t Hk. simpl in Hk. by rewrite lookup_empty in Hk. Qed.

(** ** Execution records along a history *)

Lemma logs_of_app k l1 l2 :
  logs_of k (l1 ++ l2) = (logs_of k l1 ++ logs_of k l2)%list.
Proof. apply filter_app. Qed.

Lemma logs_of_other k l logs :
  log_task_id l ≠ k → logs_of k (logs ++ [l]) = logs_of k logs.
Proof.
  intros Hne. rewrite logs_of_app. unfold logs_of at 2.
  rewrite filter_cons, decide_False, filter_nil by done. apply app_nil_r.
Qed.

Lemma last_log_own k l logs :
  log_task_id l = k → last_log k (logs ++ [l]) = Some l.
Proof.
  intros Heq. unfold last_log. rewrite logs_of_app. unfold logs_of at 2.
  rewrite filter_cons, decide_True, filter_nil by done. apply last_snoc.
Qed.

Lemma logs_of_unknown st k :
  logs_ok st → tasks st !! k = None → logs_of k (task_logs st) = [].
Proof.
  intros Hlogs Hk. apply elem_of_nil_inv. intros l Hl.
  apply list_elem_of_filter in Hl as [Hid Hin].
  unfold logs_ok in Hlogs. rewrite Forall_forall in Hlogs.
  destruct (Hlogs l Hin) as (_ & _ & _ & [t Ht]). congruence.
Qed.

Lemma execution_log_ok st ts te k r t :
  tasks st !! k = Some t →
  (r.1 = true ↔ r.2 = None) →
  log_ok st (execution_log ts te k r).
Proof.
  intros Hk Hr. unfold log_ok, execution_log. simpl.
  split_and!; [destruct r.1; [by left | by right; left]|by eexists|
               |by eexists].
  rewrite <- Hr. by destruct r.1.
Qed.

Lemma run_body_error ty body st :
  (run_body ty body st).1 = true ↔ (run_body ty body st).2 = None.
Proof.
  unfold run_body.
  destruct (decide (ty ∈ dom (task_functions st))); [destruct body|]; done.
Qed.

Section LogsAlong.
Context `{TriggerLib}.

Lemma log_ok_mono c st l : log_ok st l → log_ok (run c st) l.
Proof.
  intros (Hs & Hc & He & [t Ht]). split_and!; try done.
  destruct (row_step c st _ t Ht) as (t' & Ht' & _). by eexists.
Qed.

Lemma logs_ok_run c st : logs_ok st → logs_ok (run c st).
Proof.
  intros Hlogs. unfold logs_ok in *.
  assert (Forall (log_ok (run c st)) (task_logs st)) as Hold.
  { eapply Forall_impl; [done|]. intros l. apply log_ok_mono. }
  destruct (run_cases c st)
    as [[_ ->]|[(? & ? & ? & ? & ? & ? & ? & _ & _ & _ & ->)
       |[(? & ? & ? & _ & _ & _ & ->)
       |(ts & te & body & k & ty & t & Hk & _ & Htasks & ->)]]]; try done.
  apply Forall_app. split; [done|]. apply Forall_singleton.
  apply execution_log_ok with (t := executed ts te (run_body ty body st).1 t).
  - rewrite Htasks. apply lookup_insert_eq.
  - apply run_body_error.
Qed.

Lemma logs_prefix_run c st : task_logs st `prefix_of` task_logs (run c st).
Proof.
  destruct (run_cases c st)
    as [[_ ->]|[(? & ? & ? & ? & ? & ? & ? & _ & _ & _ & ->)
       |[(? & ? & ? & _ & _ & _ & ->)
       |(ts & te & body & k & ty & t & _ & _ & _ & ->)]]]; try done.
  by apply prefix_app_r.
Qed.

(** X6: execution records are only ever appended: the records a history
    starts with are a prefix of the records it ends with, unchanged and in
    the same order. *)
Theorem task_logs_append_only st0 st :
  reachable_from any_call st0 st →
  task_logs st0 `prefix_of` task_logs st.
Proof.
  induction 1 as [|c st _ IH _]; [done|].
  etrans; [done | apply logs_prefix_run].
Qed.

(** X7: every execution record is finished ([completed_at] set), has
    status completed or failed, carries an error message exactly when it
    is failed, and names a task that exists. *)
Theorem task_logs_stay_well_formed st0 st l :
  logs_ok st0 →
  reachable_from any_call st0 st →
  l ∈ task_logs st →
  log_status l ∈ [completed; failed] ∧
  is_Some (completed_at l) ∧
  (log_status l = completed ↔ error_message l = None) ∧
  is_Some (tasks st !! log_task_id l).
Proof.
  intros Hok Hreach Hl.
  assert (logs_ok st) as Hlogs.
  { clear Hl. induction Hreach as [|c st _ IH _];
      [done | by apply logs_ok_run]. }
  unfold logs_ok in Hlogs. rewrite Forall_forall in Hlogs. by apply Hlogs.
Qed.

End LogsAlong.

(** ** The row summary and the latest record *)

Lemma summary_executed ts te k r t logs :
  let t' := executed ts te r.1 t in
  let l := execution_log ts te k r in
  last_run_at t' = started_at <$> last_log k (logs ++ [l]) ∧
  (status t' = completed →
     log_status <$> last_log k (logs ++ [l]) = Some completed) ∧
  (status t' = failed →
     log_status <$> last_log k (logs ++ [l]) = Some failed ∧
     max_retries t' ≤ retry_count t') ∧
  (status t' = pending → is_Some (last_run_at t') →
     log_status <$> last_log k (logs ++ [l]) = Some failed ∧
     retry_count t' ≤ max_retries t').
Proof.
  intros t' l. rewrite (last_log_own k l logs) by done.
  subst t' l. unfold executed, execution_log.
  destruct r.1, (retry_count t <? max_retries t) eqn:Hlt; simpl;
    split_and!; try done; intros; split; try done; lia.
Qed.

Lemma last_log_other k ts te k0 r logs :
  k0 ≠ k →
  last_log k (logs ++ [execution_log ts te k0 r]) = last_log k logs.
Proof. intros Hne. unfold last_log. by rewrite logs_of_other. Qed.

Section SummaryAlong.
Context `{TriggerLib}.

Lemma summary_ok_run c st :
  logs_ok st → summary_ok st → summary_ok (run c st).
Proof.
  intros Hlogs Hsum k t.
  destruct (run_cases c st)
    as [[-> ->]|[(now & ty & pr & sched & rc & mr & manual & _ & _ & -> & ->)
       |[(now & k0 & t0 & _ & Hk0 & -> & ->)
       |(ts & te & body & k0 & ty & t0 & Hk0 & _ & -> & ->)]]].
  - apply Hsum.
  - rewrite lookup_insert. case_decide as Hk; [|apply Hsum].
    intros [= <-]. subst k. unfold last_log.
    rewrite (logs_of_unknown st _ Hlogs (lastrowid_fresh st)). simpl.
    split_and!; try done; by intros _ [? ?].
  - rewrite lookup_insert. case_decide as Hk; [|apply Hsum].
    intros [= <-]. subst k. destruct (Hsum k0 t0 Hk0) as (Hrun & _).
    by split_and!.
  - rewrite lookup_insert. case_decide as Hk.
    + intros [= <-]. subst k. apply summary_executed.
    + rewrite last_log_other by done. apply Hsum.
Qed.

Lemma summary_ok_reachable st0 st :
  logs_ok st0 → summary_ok st0 →
  reachable_from any_call st0 st →
  logs_ok st ∧ summary_ok st.
Proof.
  intros Hlogs Hsum Hreach. induction Hreach as [|c st _ [IHl IHs] _]; [done|].
  split; [by apply logs_ok_run | by apply summary_ok_run].
Qed.

(** X8: [last_run_at] of a row is the start time of the latest execution
    record of its task, and is empty exactly when the task has no
    record. *)
Theorem last_run_at_is_latest_record st0 st k t :
  logs_ok st0 → summary_ok st0 →
  reachable_from any_call st0 st →
  tasks st !! k = Some t →
  last_run_at t = started_at <$> last_log k (task_logs st) ∧
  (last_run_at t = None ↔ logs_of k (task_logs st) = []).
Proof.
  intros Hlogs Hsum Hreach Hk.
  destruct (summary_ok_reachable st0 st Hlogs Hsum Hreach) as [_ Hs].
  destruct (Hs k t Hk) as [Hrun _]. split; [done|].
  rewrite Hrun. unfold last_log. rewrite fmap_None. apply last_None.
Qed.

(** X9: the status of a row agrees with the latest record of its task: a
    completed row has a completed latest record; a failed row has a failed
    one and has used up its retries; a pending row that has run has a
    failed one and is still within its retries. *)
Theorem status_agrees_with_latest_record st0 st k t :
  logs_ok st0 → summary_ok st0 →
  reachable_from any_call st0 st →
  tasks st !! k = Some t →
  (status t = completed →
     log_status <$> last_log k (task_logs st) = Some completed) ∧
  (status t = failed →
     log_status <$> last_log k (task_logs st) = Some failed ∧
     max_retries t ≤ retry_count t) ∧
  (status t = pending → is_Some (last_run_at t) →
     log_status <$> last_log k (task_logs st) = Some failed ∧
     retry_count t ≤ max_retries t).
Proof.
  intros Hlogs Hsum Hreach Hk.
  destruct (summary_ok_reachable st0 st Hlogs Hsum Hreach) as [_ Hs].
  by destruct (Hs k t Hk) as (_ & Hc & Hf & Hp).
Qed.

(** No call leaves a row running: an execution overwrites the mark before
    it commits, and a new row starts pending. *)
Lemma no_running_run c st :
  (∀ k t, tasks st !! k = Some t → status t ≠ running) →
  ∀ k t, tasks (run c st) !! k = Some t → status t ≠ running.
Proof.
  intros Hno k t Hk.
  destruct (tasks st !! k) as [t0|] eqn:Hold.
  - specialize (Hno k t0 Hold).
    destruct (run_row c st k t0 Hold)
      as [Hsame|[(now & _ & Hrow)|[(ts & te & body & b & _ & _ & Hrow)
         |(j & ts & te & body & b & job & _ & _ & _ & Hrow)]]];
      rewrite Hk in *; simplify_eq; try done;
      apply executed_not_running.
  - destruct (run_new_row c st k t Hold Hk)
      as (now & ty & pr & sched & rc & mr & manual & _ & _ & _ & ->).
    done.
Qed.

Lemma no_running_reachable st0 st :
  (∀ k t, tasks st0 !! k = Some t → status t ≠ running) →
  reachable_from any_call st0 st →
  ∀ k t, tasks st !! k = Some t → status t ≠ running.
Proof.
  intros Hstart Hreach. induction Hreach as [|c st _ IH _]; [exact Hstart|].
  by apply no_running_run.
Qed.

(** X10: starting from a table without running rows, no row is ever left
    with status running, so listing the running tasks returns the empty
    list in every reachable state. *)
Theorem no_task_listed_running st0 st :
  (∀ k t, tasks st0 !! k = Some t → status t ≠ running) →
  reachable_from any_call st0 st →
  get_all_tasks (Some "running") st = [].
Proof.
  intros Hstart Hreach. unfold get_all_tasks. simpl.
  apply elem_of_nil_inv. intros t Ht.
  apply list_elem_of_filter in Ht as [Hst Hin].
  apply rows_by_id_elem in Hin as [k Hk].
  pose proof (no_running_reachable st0 st Hstart Hreach k t Hk) as Hrun.
  by destruct (status t).
Qed.

End SummaryAlong.

Lemma logs_ok_init : logs_ok init.
Proof. constructor. Qed.

Lemma summary_ok_init : summary_ok init.
Proof. intros k t Hk. simpl in Hk. by rewrite lookup_empty in Hk. Qed.

Lemma eg_ran_reachable rc mr body :
  reachable_from (H := simple_triggers) any_call init (eg_ran rc mr body).
Proof. apply reachable_run_all. repeat constructor. Qed.

(** ** The job store along a history *)

Section JobsAlong.
Context `{TriggerLib}.

Lemma row_step_status c st k t :
  tasks st !! k = Some t →
  ∃ t', tasks (run c st) !! k = Some t' ∧ same_task t t' ∧
        (status t' = cancelled →
         status t = cancelled ∨ ∃ now, c = CancelTask now k).
Proof.
  intros Hk.
  destruct (run_row c st k t Hk)
    as [Hsame|[(now & -> & Hrow)|[(ts & te & body & b & _ & _ & Hrow)
       |(j & ts & te & body & b & job & _ & _ & _ & Hrow)]]];
    eexists; (split; [eassumption|]).
  - split; [apply same_task_refl | by left].
  - split; [apply same_task_set_status | right; by eexists].
  - split; [apply same_task_executed|].
    intros Hc. by apply executed_not_cancelled in Hc.
  - split; [apply same_task_executed|].
    intros Hc. by apply executed_not_cancelled in Hc.
Qed.

Lemma registry_mono c st ty :
  ty ∈ dom (task_functions st) → ty ∈ dom (task_functions (run c st)).
Proof.
  rewrite run_task_functions. destruct c; try done.
  intros Hty. rewrite dom_insert_L. set_solver.
Qed.

Lemma scheduled_trigger_Some ty sched manual st trig :
  scheduled_trigger ty sched manual st = Some trig →
  ∃ s, sched = Some s ∧ manual = false ∧ ty ∈ dom (task_functions st) ∧
       _parse_schedule s = Some trig.
Proof.
  unfold scheduled_trigger. destruct sched as [s|]; [|done].
  destruct (Py.truthy (Some s)); [|done].
  destruct manual; [done|]. simpl.
  destruct (bool_decide (ty ∈ dom (task_functions st))) eqn:Hty; [|done].
  apply bool_decide_eq_true in Hty. intros Hparse. by exists s.
Qed.

Lemma jobs_described_run c st : jobs_described st → jobs_described (run c st).
Proof.
  intros Hd j job Hj'.
  (* a job that was there before and whose task is not being cancelled *)
  assert (jobs st !! j = Some job →
          (∀ now, c ≠ CancelTask now (job_args job).1) →
          j = job_id (job_args job).1 ∧
          job_name job = (job_args job).2 +:+ "_" +:+ pretty (job_args job).1 ∧
          (job_args job).2 ∈ dom (task_functions (run c st)) ∧
          ∃ t s,
            tasks (run c st) !! (job_args job).1 = Some t ∧
            task_type t = (job_args job).2 ∧
            schedule t = Some s ∧
            _parse_schedule s = Some (job_trigger job) ∧
            status t ≠ cancelled) as Hold.
  { intros Hj Hc.
    destruct (Hd j job Hj) as (Hid & Hname & Hreg & t & s & Ht & Hty & Hs & Hp & Hnc).
    destruct (row_step_status c st _ t Ht) as (t' & Ht' & Hsame & Hst).
    destruct Hsame as (_ & Hty' & _ & Hs' & _).
    split_and!; [done|done|by apply registry_mono|].
    exists t', s. split_and!; [done|congruence|congruence|done|].
    intros Hcanc. destruct (Hst Hcanc) as [?|[now ->]]; [done|].
    by apply (Hc now). }
  rewrite run_jobs in Hj'.
  destruct c as [ty f|now ty pr sched rc mr manual
                 |ts te body tid|now tid|j0 ts te body];
    try (by apply Hold).
  - destruct (decide (pr ∈ TASK_PRIORITIES)) as [Hpr|Hpr]; [|by apply Hold].
    destruct (scheduled_trigger ty sched manual st) as [trig|] eqn:Htrig;
      [|by apply Hold].
    rewrite lookup_insert in Hj'. case_decide as Hj; [|by apply Hold].
    injection Hj' as <-. subst j. simpl.
    destruct (scheduled_trigger_Some _ _ _ _ _ Htrig)
      as (s & -> & -> & Hreg & Hparse).
    split_and!; [done|done|by apply (registry_mono (AddTask _ _ _ _ _ _ _))|].
    destruct (add_task_valid now ty pr (Some s) rc mr false st Hpr)
      as (st' & Hok & Htasks & _).
    exists (new_row (lastrowid st) now ty pr (Some s) rc mr), s.
    simpl. rewrite Hok. simpl. rewrite Htasks, lookup_insert_eq. by split_and!.
  - rewrite lookup_delete in Hj'. case_decide as Hj; [done|].
    apply Hold; [done|]. intros now' [= _ Heq].
    destruct (Hd j job Hj') as (Hid & _). congruence.
Qed.

Lemma jobs_described_reachable st0 st :
  jobs st0 = ∅ → reachable_from any_call st0 st → jobs_described st.
Proof.
  intros Hempty Hreach. induction Hreach as [|c st _ IH _].
  - intros j job Hj. by rewrite Hempty, lookup_empty in Hj.
  - by apply jobs_described_run.
Qed.

(** X11: every job in the store belongs to a task: it sits under that
    task's job id and name, carries the task's own type, for which a body
    is registered, and the trigger parsed from the task's schedule, and
    the task is not cancelled. *)
Theorem jobs_match_their_tasks st0 st j job :
  jobs st0 = ∅ →
  reachable_from any_call st0 st →
  jobs st !! j = Some job →
  j = job_id (job_args job).1 ∧
  job_name job = (job_args job).2 +:+ "_" +:+ pretty (job_args job).1 ∧
  (job_args job).2 ∈ dom (task_functions st) ∧
  ∃ t s,
    tasks st !! (job_args job).1 = Some t ∧
    task_type t = (job_args job).2 ∧
    schedule t = Some s ∧
    _parse_schedule s = Some (job_trigger job) ∧
    status t ≠ cancelled.
Proof.
  intros Hempty Hreach Hj.
  by apply (jobs_described_reachable st0 st Hempty Hreach).
Qed.

End JobsAlong.

Section Firing.
Context `{TriggerLib}.

(** X12: when the engine fires a job, the body registered for the task's
    type is what runs: the record appended is completed without an error
    message if the body returns and failed with the raised message if it
    raises, never the "no function registered" failure. *)
Theorem fired_job_runs_registered_body st0 st j job ts te body :
  jobs st0 = ∅ →
  reachable_from any_call st0 st →
  jobs st !! j = Some job →
  ∃ t,
    tasks st !! (job_args job).1 = Some t ∧
    tasks (run (Fire j ts te body) st) !! (job_args job).1
    = Some (executed ts te (if body is Returns then true else false) t) ∧
    task_logs (run (Fire j ts te body) st)
    = (task_logs st ++
       [{| log_task_id := (job_args job).1;
           log_status := if body is Returns then completed else failed;
           started_at := ts; completed_at := Some te;
           error_message := if body is Raises e then Some e else None |}])%list.
Proof.
  intros Hempty Hreach Hj.
  destruct (jobs_described_reachable st0 st Hempty Hreach j job Hj)
    as (_ & _ & Hreg & t & s & Ht & _).
  exists t. split; [done|]. simpl. rewrite Hj.
  destruct (execute_task_present ts te body (job_args job).1
              (job_args job).2 st t Ht)
    as (st' & Hok & Htasks & Hlogs & _). rewrite Hok. simpl.
  rewrite Htasks, Hlogs, lookup_insert_eq.
  unfold execution_log, run_body. rewrite decide_True by done.
  by destruct body.
Qed.

(** X13: a task whose schedule is absent or does not parse has no job, and
    no firing of any job touches its row. *)
Theorem unscheduled_task_never_fires st0 st k t j ts te body :
  jobs st0 = ∅ →
  reachable_from any_call st0 st →
  tasks st !! k = Some t →
  (∀ s, schedule t = Some s → _parse_schedule s = None) →
  jobs st !! job_id k = None ∧
  tasks (run (Fire j ts te body) st) !! k = Some t.
Proof.
  intros Hempty Hreach Hk Hsched.
  pose proof (jobs_described_reachable st0 st Hempty Hreach) as Hd.
  assert (∀ j' job, jobs st !! j' = Some job → (job_args job).1 ≠ k) as Hno.
  { intros j' job Hj' Heq.
    destruct (Hd j' job Hj') as (_ & _ & _ & t' & s & Ht' & _ & Hs & Hp & _).
    rewrite Heq, Hk in Ht'. injection Ht' as <-.
    rewrite (Hsched s Hs) in Hp. discriminate. }
  split.
  - destruct (jobs st !! job_id k) as [job|] eqn:Hj; [|done].
    destruct (Hd _ job Hj) as (Hid & _).
    apply (inj (String.append "task_")), (inj pretty) in Hid.
    by destruct (Hno _ job Hj).
  - destruct (run_row (Fire j ts te body) st k t Hk)
      as [Hsame|[(now & ? & _)|[(? & ? & ? & ? & ? & _)
         |(j' & ? & ? & ? & ? & job & [= <- _ _ _] & Hj & Hargs & _)]]];
      try done.
    by destruct (Hno _ job Hj).
Qed.

Lemma occur_jobs_keyed e st :
  (∀ j job, jobs st !! j = Some job → j = job_id (job_args job).1) →
  ∀ j job, jobs (occur e st) !! j = Some job → j = job_id (job_args job).1.
Proof.
  intros Hkeyed j job. destruct e as [c|ts te body tid ty]; simpl.
  - rewrite run_jobs.
    destruct c as [ty f|now ty pr sched rc mr manual
                   |ts te body tid|now tid|j0 ts te body]; try apply Hkeyed.
    + destruct (decide (pr ∈ TASK_PRIORITIES)); [|apply Hkeyed].
      destruct (scheduled_trigger ty sched manual st); [|apply Hkeyed].
      rewrite lookup_insert. case_decide as Hj; [|apply Hkeyed].
      by intros [= <-].
    + rewrite lookup_delete. case_decide; [done | apply Hkeyed].
  - destruct (execute_task_state ts te body tid ty st) as [_ ->].
    apply Hkeyed.
Qed.

Lemma occur_row e st k :
  is_Some (tasks st !! k) → is_Some (tasks (occur e st) !! k).
Proof.
  intros [t Hk]. destruct e as [c|ts te body tid ty]; simpl.
  - destruct (row_step c st k t Hk) as (t' & Hk' & _). by exists t'.
  - destruct (execute_task_state ts te body tid ty st) as [-> _].
    destruct (tasks st !! tid) as [t0|]; [|by exists t].
    rewrite lookup_insert. case_decide; by eexists.
Qed.

Lemma occur_no_job e st k :
  is_Some (tasks st !! k) →
  (∀ j job, jobs st !! j = Some job → (job_args job).1 ≠ k) →
  ∀ j job, jobs (occur e st) !! j = Some job → (job_args job).1 ≠ k.
Proof.
  intros [t Hk] Hno j job. destruct e as [c|ts te body tid ty]; simpl.
  - rewrite run_jobs.
    destruct c as [ty f|now ty pr sched rc mr manual
                   |ts te body tid|now tid|j0 ts te body]; try apply Hno.
    + destruct (decide (pr ∈ TASK_PRIORITIES)); [|apply Hno].
      destruct (scheduled_trigger ty sched manual st); [|apply Hno].
      rewrite lookup_insert. case_decide as Hj; [|apply Hno].
      intros [= <-]. simpl. intros Heq. rewrite <- Heq in Hk.
      by rewrite lastrowid_fresh in Hk.
    + rewrite lookup_delete. case_decide; [done | apply Hno].
  - destruct (execute_task_state ts te body tid ty st) as [_ ->].
    apply Hno.
Qed.

Lemma occur_all_jobs_keyed es st :
  (∀ j job, jobs st !! j = Some job → j = job_id (job_args job).1) →
  ∀ j job, jobs (occur_all es st) !! j = Some job →
    j = job_id (job_args job).1.
Proof.
  revert st. unfold occur_all.
  induction es as [|e es IH]; intros st Hkeyed; simpl; [done|].
  apply IH. by apply occur_jobs_keyed.
Qed.

Lemma occur_all_no_job es st k :
  is_Some (tasks st !! k) →
  (∀ j job, jobs st !! j = Some job → (job_args job).1 ≠ k) →
  is_Some (tasks (occur_all es st) !! k) ∧
  ∀ j job, jobs (occur_all es st) !! j = Some job → (job_args job).1 ≠ k.
Proof.
  revert st. unfold occur_all.
  induction es as [|e es IH]; intros st Hk Hno; simpl; [done|].
  apply IH; [by apply occur_row | by apply occur_no_job].
Qed.

(** A firing that finds no job for [k] leaves the row and the records of
    [k] alone. *)
Lemma fire_other_task st k j ts te body :
  (∀ j' job, jobs st !! j' = Some job → (job_args job).1 ≠ k) →
  tasks (run (Fire j ts te body) st) !! k = tasks st !! k ∧
  logs_of k (task_logs (run (Fire j ts te body) st))
  = logs_of k (task_logs st).
Proof.
  intros Hno. simpl.
  destruct (jobs st !! j) as [job|] eqn:Hj; [|done].
  specialize (Hno j job Hj).
  destruct (tasks st !! (job_args job).1) as [t0|] eqn:Ht0.
  - destruct (execute_task_present ts te body (job_args job).1
                (job_args job).2 st t0 Ht0)
      as (st' & Hok & Htasks & Hlogs & _). rewrite Hok. simpl.
    rewrite Htasks, Hlogs.
    split; [by rewrite lookup_insert_ne | by apply logs_of_other].
  - by rewrite execute_task_absent.
Qed.

(** X14: once [cancel_task] has run on an existing task, the engine never
    starts a new run of it: through every later sequence of calls, firings
    and late completions of runs dispatched earlier, no job in the store
    points at the task, so no firing touches its row or adds an execution
    record for it.  [cancel_task] does not stop a run dispatched before it:
    when such a run executes afterwards, it overwrites the cancelled status
    with completed, pending or failed. *)
Theorem cancelled_task_never_dispatched st0 es0 now k es :
  jobs st0 = ∅ →
  is_Some (tasks (occur_all es0 st0) !! k) →
  let st1 := (cancel_task now k (occur_all es0 st0)).2 in
  let st' := occur_all es st1 in
  (∃ t, tasks st1 !! k = Some t ∧ status t = cancelled) ∧
  jobs st' !! job_id k = None ∧
  (∀ j job, jobs st' !! j = Some job → (job_args job).1 ≠ k) ∧
  (∀ j ts te body,
     tasks (run (Fire j ts te body) st') !! k = tasks st' !! k ∧
     logs_of k (task_logs (run (Fire j ts te body) st'))
     = logs_of k (task_logs st')) ∧
  (∀ ts te body ty,
     ∃ t', tasks (occur (Completes ts te body k ty) st1) !! k = Some t' ∧
           status t' ∈ [completed; pending; failed]).
Proof.
  intros Hempty [t Hk] st1 st'.
  set (st := occur_all es0 st0) in *.
  assert (∀ j job, jobs st !! j = Some job → j = job_id (job_args job).1)
    as Hkeyed.
  { apply occur_all_jobs_keyed. intros j job.
    by rewrite Hempty, lookup_empty. }
  assert (tasks st1 !! k = Some (set_status cancelled now t)) as Hk1.
  { unfold st1. simpl. by rewrite lookup_alter_eq, Hk. }
  assert (∀ j job, jobs st1 !! j = Some job → j = job_id (job_args job).1)
    as Hkeyed1.
  { intros j job. unfold st1. simpl. rewrite lookup_delete.
    case_decide; [done | apply Hkeyed]. }
  assert (∀ j job, jobs st1 !! j = Some job → (job_args job).1 ≠ k) as Hno1.
  { intros j job Hj Heq. pose proof (Hkeyed1 j job Hj) as Hid.
    rewrite Heq in Hid. subst j. unfold st1 in Hj. simpl in Hj.
    by rewrite lookup_delete_eq in Hj. }
  destruct (occur_all_no_job es st1 k) as [_ Hno]; [by eexists | done |].
  pose proof (occur_all_jobs_keyed es st1 Hkeyed1) as Hkeyed'.
  fold st' in Hno, Hkeyed'.
  split_and!.
  - by eexists.
  - destruct (jobs st' !! job_id k) as [job|] eqn:Hj; [|done].
    pose proof (Hkeyed' _ job Hj) as Hid. apply job_id_inj in Hid.
    by destruct (Hno _ job Hj).
  - exact Hno.
  - intros j ts te body. by apply fire_other_task.
  - intros ts te body ty. simpl.
    destruct (execute_task_present ts te body k ty st1 _ Hk1)
      as (st2 & Hok & Htasks & _). rewrite Hok. simpl. rewrite Htasks.
    eexists. split; [apply lookup_insert_eq | apply executed_status].
Qed.

End Firing.

(** X15: once [cancel_task] has run on an existing task, its job is out of
    the store, [trigger_task] on it returns [False] and changes nothing,
    and a firing under its job id changes nothing. *)
Theorem cancel_then_trigger_is_refused `{TriggerLib} now ts te body k st t :
  tasks st !! k = Some t →
  jobs (cancel_task now k st).2 !! job_id k = None ∧
  trigger_task ts te body k (cancel_task now k st).2
  = Ok false (cancel_task now k st).2 ∧
  run (Fire (job_id k) ts te body) (cancel_task now k st).2
  = (cancel_task now k st).2.
Proof.
  intros Hk. simpl. rewrite lookup_delete_eq. split; [done|].
  unfold trigger_task. simpl. rewrite lookup_alter_eq, Hk. simpl.
  by split.
Qed.

(** ** Task ids *)

Lemma max_rowid_le_bound (m : gmap Z Task) b :
  0 ≤ b → (∀ k t, m !! k = Some t → k ≤ b) → max_rowid m ≤ b.
Proof.
  intros Hb. unfold max_rowid.
  apply (map_fold_weak_ind
           (λ r (m : gmap Z Task), (∀ k t, m !! k = Some t → k ≤ b) → r ≤ b)).
  - done.
  - intros i x m' r Hi IH Hall.
    assert (i ≤ b) by (apply (Hall i x), lookup_insert_eq).
    assert (r ≤ b); [|lia].
    apply IH. intros k t Hk. apply (Hall k t).
    rewrite lookup_insert_ne; [done|]. intros ->. congruence.
Qed.

Lemma max_rowid_nonneg (m : gmap Z Task) : 0 ≤ max_rowid m.
Proof.
  unfold max_rowid.
  apply (map_fold_weak_ind (λ r (_ : gmap Z Task), 0 ≤ r)); [done|].
  intros. lia.
Qed.

Lemma max_rowid_mono (m m' : gmap Z Task) :
  (∀ k t, m !! k = Some t → is_Some (m' !! k)) → max_rowid m ≤ max_rowid m'.
Proof.
  intros Hsub. apply max_rowid_le_bound; [apply max_rowid_nonneg|].
  intros k t Hk. destruct (Hsub k t Hk) as [t' Hk'].
  by apply max_rowid_ge in Hk'.
Qed.

Section Ids.
Context `{TriggerLib}.

Lemma add_task_Ok_inv now ty pr sched rc mr manual st tid st' :
  add_task now ty pr sched rc mr manual st = Ok tid st' →
  pr ∈ TASK_PRIORITIES ∧ tid = lastrowid st ∧ tasks_seq st' = tid.
Proof.
  unfold add_task. destruct (decide (pr ∈ TASK_PRIORITIES)); [|done].
  intros Hok. split; [done|].
  destruct sched as [s|]; [destruct (Py.truthy (Some s) && negb manual)|];
    injection Hok as <- <-; split; try done.
  unfold _schedule_task.
  destruct (decide (ty ∈ dom _)); [destruct (_parse_schedule s)|]; done.
Qed.

Lemma execute_task_seq ts te body tid ty st :
  tasks_seq (state_of (_execute_task ts te body tid ty st)) = tasks_seq st.
Proof.
  unfold _execute_task.
  destruct (tasks (mark_running ts tid st) !! tid) as [t|]; [|done].
  destruct (run_body ty body (mark_running ts tid st)) as [b e]. simpl.
  unfold record_outcome. by destruct (negb b && _).
Qed.

Lemma run_tasks_seq c st : tasks_seq st ≤ tasks_seq (run c st).
Proof.
  destruct c as [ty f|now ty pr sched rc mr manual
                 |ts te body tid|now tid|j ts te body]; simpl; try done.
  - destruct (add_task now ty pr sched rc mr manual st) as [tid st'|e st']
      eqn:Hadd.
    + apply add_task_Ok_inv in Hadd as (_ & Htid & Hseq). simpl.
      rewrite Hseq, Htid. unfold lastrowid. lia.
    + unfold add_task in Hadd.
      destruct (decide (pr ∈ TASK_PRIORITIES)).
      * by destruct sched as [s|];
          [destruct (Py.truthy (Some s) && negb manual)|].
      * by injection Hadd as _ <-.
  - unfold trigger_task.
    destruct (tasks st !! tid) as [t|] eqn:Ht; [|done].
    destruct (decide (status t ∈ [cancelled; completed])); [done|].
    pose proof (execute_task_seq ts te body tid (task_type t) st) as Hs.
    destruct (_execute_task ts te body tid (task_type t) st); simpl in *; lia.
  - destruct (jobs st !! j) as [job|]; [|done].
    by rewrite execute_task_seq.
Qed.

Lemma lastrowid_run c st : lastrowid st ≤ lastrowid (run c st).
Proof.
  unfold lastrowid. pose proof (run_tasks_seq c st).
  assert (max_rowid (tasks st) ≤ max_rowid (tasks (run c st))); [|lia].
  apply max_rowid_mono. intros k t Hk.
  destruct (row_step c st k t Hk) as (t' & Hk' & _). by eexists.
Qed.

Lemma lastrowid_reachable st0 st :
  reachable_from any_call st0 st → lastrowid st0 ≤ lastrowid st.
Proof.
  induction 1 as [|c st _ IH _]; [done|].
  etrans; [done | apply lastrowid_run].
Qed.

(** X16: task ids are never reused: an id returned by [add_task] is smaller
    than every id a later [add_task] returns, whatever was called in
    between. *)
Theorem task_ids_strictly_increase now ty pr sched rc mr manual st tid st1
    st2 now' ty' pr' sched' rc' mr' manual' tid' st3 :
  add_task now ty pr sched rc mr manual st = Ok tid st1 →
  reachable_from any_call st1 st2 →
  add_task now' ty' pr' sched' rc' mr' manual' st2 = Ok tid' st3 →
  tid < tid'.
Proof.
  intros Hadd Hreach Hadd'.
  apply add_task_Ok_inv in Hadd as (_ & _ & Hseq).
  apply add_task_Ok_inv in Hadd' as (_ & -> & _).
  apply lastrowid_reachable in Hreach.
  unfold lastrowid in Hreach at 1. lia.
Qed.

(** X17: a task that exists never acquires a job later: a job found under
    its job id after any history was already there before, unchanged.
    Registering the task's type afterwards does not schedule it. *)
Theorem existing_task_never_scheduled_later st0 st k job :
  reachable_from any_call st0 st →
  k < lastrowid st0 →
  jobs st !! job_id k = Some job →
  jobs st0 !! job_id k = Some job.
Proof.
  intros Hreach Hk. induction Hreach as [|c st Hreach IH _]; [done|].
  intros Hj. apply IH. rewrite run_jobs in Hj.
  apply lastrowid_reachable in Hreach.
  destruct c as [ty f|now ty pr sched rc mr manual
                 |ts te body tid|now tid|j ts te body]; try done.
  - destruct (decide (pr ∈ TASK_PRIORITIES)); [|done].
    destruct (scheduled_trigger ty sched manual st); [|done].
    rewrite lookup_insert_ne in Hj; [done|].
    intros Heq. apply (inj (String.append "task_")), (inj pretty) in Heq. lia.
  - rewrite lookup_delete in Hj. by case_decide.
Qed.

(** ** Retries *)

Lemma run_all_cons c cs st : run_all (c :: cs) st = run_all cs (run c st).
Proof. reflexivity. Qed.

Lemma after_failures_step n ts te t :
  (0 < n)%nat →
  after_failures (S n) t = after_failures n (executed ts te false t).
Proof.
  intros Hn. unfold after_failures, executed. simpl negb. simpl andb.
  destruct (retry_count t <? max_retries t) eqn:Hlt; simpl;
    repeat case_decide; try lia; f_equal; lia.
Qed.

Lemma after_failures_one ts te t :
  (status (executed ts te false t), retry_count (executed ts te false t))
  = after_failures 1 t.
Proof.
  unfold after_failures, executed. simpl negb. simpl andb.
  destruct (retry_count t <? max_retries t) eqn:Hlt; simpl;
    repeat case_decide; try lia; f_equal; lia.
Qed.

Lemma failed_execution_status ts te t :
  status (executed ts te false t) ∉ [cancelled; completed].
Proof.
  unfold executed. simpl negb. simpl andb.
  destruct (retry_count t <? max_retries t); simpl;
    intros Hin; repeat (apply elem_of_cons in Hin as [Hin|Hin]; [done|]);
    by apply elem_of_nil in Hin.
Qed.

(** X18: [n >= 1] manual triggers in a row whose executions all fail leave
    the task pending with [retry_count] raised by [n] as long as that does
    not exceed [max_retries], and failed with [retry_count] at
    [max (retry_count, max_retries)] from then on. *)
Theorem failing_triggers_use_up_retries n ts te body k st t :
  tasks st !! k = Some t →
  status t ∉ [cancelled; completed] →
  (run_body (task_type t) body st).1 = false →
  (0 < n)%nat →
  ∃ t',
    tasks (run_all (replicate n (TriggerTask ts te body k)) st) !! k = Some t' ∧
    (status t', retry_count t') = after_failures n t.
Proof.
  intros Hk Hst Hfail Hn. destruct n as [|n]; [lia|]. clear Hn.
  revert st t Hk Hst Hfail. induction n as [|n IH]; intros st t Hk Hst Hfail.
  - simpl replicate. rewrite run_all_cons. unfold run_all at 1. simpl foldl.
    unfold run, trigger_task. rewrite Hk, decide_False by done.
    destruct (execute_task_present ts te body k (task_type t) st t Hk)
      as (st' & Hok & Htasks & _). rewrite Hok. simpl.
    rewrite Htasks, lookup_insert_eq, Hfail.
    eexists. split; [done|]. apply after_failures_one.
  - change (replicate (S (S n)) ?c) with (c :: replicate (S n) c).
    rewrite run_all_cons.
    destruct (execute_task_present ts te body k (task_type t) st t Hk)
      as (st' & Hok & Htasks & _ & _ & Hfn).
    assert (run (TriggerTask ts te body k) st = st') as ->.
    { unfold run, trigger_task. by rewrite Hk, decide_False, Hok by done. }
    rewrite Hfail in Htasks.
    rewrite (after_failures_step (S n) ts te) by lia.
    apply IH.
    + rewrite Htasks. apply lookup_insert_eq.
    + apply failed_execution_status.
    + destruct (same_task_executed ts te false t) as (_ & -> & _).
      unfold run_body in *. by rewrite Hfn.
Qed.

End Ids.

(** ** The parser on padded input *)

Lemma space_is_not_i c : Py.isspace c = true → c ≠ "i"%char.
Proof. intros Hc ->. vm_compute in Hc. discriminate. Qed.

(** X19: a schedule that begins with whitespace is only ever read as cron:
    it parses when the rest has five fields the cron trigger accepts, and
    gives no trigger otherwise, also for [" interval 5"]. *)
Theorem parse_leading_whitespace `{TriggerLib} c s :
  Py.isspace c = true →
  _parse_schedule (String c s) =
    match Py.split s with
    | [p0; p1; p2; p3; p4] =>
        if cron_accepts p0 p1 p2 p3 p4
        then Some (CronTrigger p0 p1 p2 p3 p4) else None
    | _ => None
    end.
Proof.
  intros Hc. unfold _parse_schedule.
  assert (Py.split (String c s) = Py.split s) as ->.
  { unfold Py.split. simpl. by rewrite Hc. }
  assert (Py.startswith (String c s) "interval " = false) as ->.
  { unfold Py.startswith.
    change (String.prefix "interval " (String c s))
      with (if ascii_dec "i" c then String.prefix "nterval " s else false).
    destruct (ascii_dec "i" c) as [e|]; [|done].
    exfalso. by apply (space_is_not_i c Hc). }
  destruct (Py.split s) as [|p0 [|p1 [|p2 [|p3 [|p4 [|p5 ps]]]]]]; done.
Qed.

Lemma parse_leading_whitespace_witness :
  Py.isspace " " = true ∧
  _parse_schedule (H := simple_triggers) (String " " "interval 5") =
    match Py.split "interval 5" with
    | [p0; p1; p2; p3; p4] =>
        if cron_accepts (TriggerLib := simple_triggers) p0 p1 p2 p3 p4
        then Some (CronTrigger p0 p1 p2 p3 p4) else None
    | _ => None
    end.
Proof.
  assert (Py.isspace " " = true) as Hc by reflexivity.
  split; [exact Hc|].
  exact (parse_leading_whitespace (H := simple_triggers) " " "interval 5" Hc).
Defined.

Lemma parse_interval_witness :
  Py.int " +1_0 " = Some 10 ∧
  interval_accepts (TriggerLib := simple_triggers) 10 = true ∧
  _parse_schedule (H := simple_triggers) ("interval " +:+ " +1_0 ")
  = Some (IntervalTrigger 10).
Proof.
  assert (Py.int " +1_0 " = Some 10) as Hint by (vm_compute; reflexivity).
  assert (interval_accepts (TriggerLib := simple_triggers) 10 = true) as Hacc
    by reflexivity.
  refine (conj Hint (conj Hacc _)).
  exact (parse_interval (H := simple_triggers) " +1_0 " 10 Hint Hacc).
Defined.

(** ** Closed instances *)

Lemma eg_scheduled_reachable :
  reachable_from (H := simple_triggers) any_call init eg_scheduled.
Proof. apply reachable_run_all. repeat constructor. Qed.

Lemma one_step_reachable c st :
  reachable_from (H := simple_triggers) any_call st
    (run (H := simple_triggers) c st).
Proof. apply reach_step; [apply reach_start | exact I]. Qed.

Lemma rows_persist_witness :
  reachable_from (H := simple_triggers) any_call eg_scheduled
    (run (H := simple_triggers) (CancelTask "t3" 1) eg_scheduled) ∧
  tasks eg_scheduled !! 1
  = Some (new_row 1 "t0" "job" "critical" (Some "interval 5") 0 3) ∧
  ∃ t', tasks (run (H := simple_triggers) (CancelTask "t3" 1) eg_scheduled)
          !! 1 = Some t' ∧
        same_task (new_row 1 "t0" "job" "critical" (Some "interval 5") 0 3) t' ∧
        retry_count (new_row 1 "t0" "job" "critical" (Some "interval 5") 0 3)
        ≤ retry_count t'.
Proof.
  pose proof (one_step_reachable (CancelTask "t3" 1) eg_scheduled) as Hreach.
  assert (tasks eg_scheduled !! 1
          = Some (new_row 1 "t0" "job" "critical" (Some "interval 5") 0 3))
    as Hrow by (vm_compute; reflexivity).
  refine (conj Hreach (conj Hrow _)).
  exact (rows_persist (H := simple_triggers) eg_scheduled _ 1 _ Hreach Hrow).
Defined.

Lemma rows_stay_well_formed_witness :
  rows_ok init ∧
  reachable_from (H := simple_triggers) any_call init (eg_ran 0 3 Returns) ∧
  tasks (eg_ran 0 3 Returns) !! 1
  = Some (executed "t1" "t2" true (new_row 1 "t0" "job" "normal" None 0 3)) ∧
  id (executed "t1" "t2" true (new_row 1 "t0" "job" "normal" None 0 3)) = 1 ∧
  priority (executed "t1" "t2" true (new_row 1 "t0" "job" "normal" None 0 3))
  ∈ TASK_PRIORITIES ∧
  status (executed "t1" "t2" true (new_row 1 "t0" "job" "normal" None 0 3))
  ≠ running ∧
  next_run_at (executed "t1" "t2" true (new_row 1 "t0" "job" "normal" None 0 3))
  = None.
Proof.
  pose proof (eg_ran_reachable 0 3 Returns) as Hreach.
  assert (tasks (eg_ran 0 3 Returns) !! 1
          = Some (executed "t1" "t2" true
                    (new_row 1 "t0" "job" "normal" None 0 3))) as Hrow
    by (vm_compute; reflexivity).
  refine (conj rows_ok_init (conj Hreach (conj Hrow _))).
  exact (rows_stay_well_formed (H := simple_triggers) init _ 1 _
           rows_ok_init Hreach Hrow).
Defined.

Lemma task_logs_append_only_witness :
  reachable_from (H := simple_triggers) any_call (eg_ran 0 3 (Raises "boom"))
    (run (H := simple_triggers) (TriggerTask "t3" "t4" Returns 1)
       (eg_ran 0 3 (Raises "boom"))) ∧
  task_logs (eg_ran 0 3 (Raises "boom"))
  `prefix_of`
  task_logs (run (H := simple_triggers) (TriggerTask "t3" "t4" Returns 1)
               (eg_ran 0 3 (Raises "boom"))).
Proof.
  pose proof (one_step_reachable (TriggerTask "t3" "t4" Returns 1)
                (eg_ran 0 3 (Raises "boom"))) as Hreach.
  split; [exact Hreach|].
  exact (task_logs_append_only (H := simple_triggers) _ _ Hreach).
Defined.

Lemma task_logs_stay_well_formed_witness :
  logs_ok init ∧
  reachable_from (H := simple_triggers) any_call init
    (eg_ran 0 3 (Raises "boom")) ∧
  execution_log "t1" "t2" 1 (false, Some "boom")
  ∈ task_logs (eg_ran 0 3 (Raises "boom")) ∧
  log_status (execution_log "t1" "t2" 1 (false, Some "boom"))
  ∈ [completed; failed] ∧
  is_Some (completed_at (execution_log "t1" "t2" 1 (false, Some "boom"))) ∧
  (log_status (execution_log "t1" "t2" 1 (false, Some "boom")) = completed
   ↔ error_message (execution_log "t1" "t2" 1 (false, Some "boom")) = None) ∧
  is_Some (tasks (eg_ran 0 3 (Raises "boom"))
             !! log_task_id (execution_log "t1" "t2" 1 (false, Some "boom"))).
Proof.
  pose proof (eg_ran_reachable 0 3 (Raises "boom")) as Hreach.
  assert (execution_log "t1" "t2" 1 (false, Some "boom")
          ∈ task_logs (eg_ran 0 3 (Raises "boom"))) as Hin.
  { assert (task_logs (eg_ran 0 3 (Raises "boom"))
            = [execution_log "t1" "t2" 1 (false, Some "boom")]) as ->
      by (vm_compute; reflexivity).
    by left. }
  refine (conj logs_ok_init (conj Hreach (conj Hin _))).
  exact (task_logs_stay_well_formed (H := simple_triggers) init _ _
           logs_ok_init Hreach Hin).
Defined.

Lemma last_run_at_is_latest_record_witness :
  logs_ok init ∧ summary_ok init ∧
  reachable_from (H := simple_triggers) any_call init
    (eg_ran 0 3 (Raises "boom")) ∧
  tasks (eg_ran 0 3 (Raises "boom")) !! 1
  = Some (executed "t1" "t2" false (new_row 1 "t0" "job" "normal" None 0 3)) ∧
  last_run_at (executed "t1" "t2" false
                 (new_row 1 "t0" "job" "normal" None 0 3))
  = started_at <$> last_log 1 (task_logs (eg_ran 0 3 (Raises "boom"))) ∧
  (last_run_at (executed "t1" "t2" false
                  (new_row 1 "t0" "job" "normal" None 0 3)) = None
   ↔ logs_of 1 (task_logs (eg_ran 0 3 (Raises "boom"))) = []).
Proof.
  pose proof (eg_ran_reachable 0 3 (Raises "boom")) as Hreach.
  assert (tasks (eg_ran 0 3 (Raises "boom")) !! 1
          = Some (executed "t1" "t2" false
                    (new_row 1 "t0" "job" "normal" None 0 3))) as Hrow
    by (vm_compute; reflexivity).
  refine (conj logs_ok_init (conj summary_ok_init (conj Hreach (conj Hrow _)))).
  exact (last_run_at_is_latest_record (H := simple_triggers) init _ 1 _
           logs_ok_init summary_ok_init Hreach Hrow).
Defined.

Lemma status_agrees_with_latest_record_witness :
  logs_ok init ∧ summary_ok init ∧
  reachable_from (H := simple_triggers) any_call init
    (eg_ran 3 3 (Raises "boom")) ∧
  tasks (eg_ran 3 3 (Raises "boom")) !! 1
  = Some (executed "t1" "t2" false (new_row 1 "t0" "job" "normal" None 3 3)) ∧
  (status (executed "t1" "t2" false
             (new_row 1 "t0" "job" "normal" None 3 3)) = completed →
     log_status <$> last_log 1 (task_logs (eg_ran 3 3 (Raises "boom")))
     = Some completed) ∧
  (status (executed "t1" "t2" false
             (new_row 1 "t0" "job" "normal" None 3 3)) = failed →
     log_status <$> last_log 1 (task_logs (eg_ran 3 3 (Raises "boom")))
     = Some failed ∧
     max_retries (executed "t1" "t2" false
                    (new_row 1 "t0" "job" "normal" None 3 3))
     ≤ retry_count (executed "t1" "t2" false
                      (new_row 1 "t0" "job" "normal" None 3 3))) ∧
  (status (executed "t1" "t2" false
             (new_row 1 "t0" "job" "normal" None 3 3)) = pending →
   is_Some (last_run_at (executed "t1" "t2" false
                           (new_row 1 "t0" "job" "normal" None 3 3))) →
     log_status <$> last_log 1 (task_logs (eg_ran 3 3 (Raises "boom")))
     = Some failed ∧
     retry_count (executed "t1" "t2" false
                    (new_row 1 "t0" "job" "normal" None 3 3))
     ≤ max_retries (executed "t1" "t2" false
                      (new_row 1 "t0" "job" "normal" None 3 3))).
Proof.
  pose proof (eg_ran_reachable 3 3 (Raises "boom")) as Hreach.
  assert (tasks (eg_ran 3 3 (Raises "boom")) !! 1
          = Some (executed "t1" "t2" false
                    (new_row 1 "t0" "job" "normal" None 3 3))) as Hrow
    by (vm_compute; reflexivity).
  refine (conj logs_ok_init (conj summary_ok_init (conj Hreach (conj Hrow _)))).
  exact (status_agrees_with_latest_record (H := simple_triggers) init _ 1 _
           logs_ok_init summary_ok_init Hreach Hrow).
Defined.

Lemma no_task_listed_running_witness :
  (∀ k t, tasks init !! k = Some t → status t ≠ running) ∧
  reachable_from (H := simple_triggers) any_call init (eg_ran 0 3 Returns) ∧
  get_all_tasks (Some "running") (eg_ran 0 3 Returns) = [].
Proof.
  assert (∀ k t, tasks init !! k = Some t → status t ≠ running) as Hstart.
  { intros k t Hk. simpl in Hk. rewrite lookup_empty in Hk. discriminate. }
  pose proof (eg_ran_reachable 0 3 Returns) as Hreach.
  refine (conj Hstart (conj Hreach _)).
  exact (no_task_listed_running (H := simple_triggers) init _ Hstart Hreach).
Defined.

Lemma jobs_init_empty : jobs init = ∅.
Proof. reflexivity. Qed.

Lemma eg_scheduled_job :
  jobs eg_scheduled !! job_id 1 = Some (new_job 1 "job" (IntervalTrigger 5)).
Proof. vm_compute. reflexivity. Qed.

Lemma jobs_match_their_tasks_witness :
  jobs init = ∅ ∧
  reachable_from (H := simple_triggers) any_call init eg_scheduled ∧
  jobs eg_scheduled !! job_id 1 = Some (new_job 1 "job" (IntervalTrigger 5)) ∧
  job_id 1 = job_id (job_args (new_job 1 "job" (IntervalTrigger 5))).1 ∧
  job_name (new_job 1 "job" (IntervalTrigger 5))
  = (job_args (new_job 1 "job" (IntervalTrigger 5))).2 +:+ "_"
    +:+ pretty (job_args (new_job 1 "job" (IntervalTrigger 5))).1 ∧
  (job_args (new_job 1 "job" (IntervalTrigger 5))).2
  ∈ dom (task_functions eg_scheduled) ∧
  ∃ t s,
    tasks eg_scheduled !! (job_args (new_job 1 "job" (IntervalTrigger 5))).1
    = Some t ∧
    task_type t = (job_args (new_job 1 "job" (IntervalTrigger 5))).2 ∧
    schedule t = Some s ∧
    _parse_schedule (H := simple_triggers) s
    = Some (job_trigger (new_job 1 "job" (IntervalTrigger 5))) ∧
    status t ≠ cancelled.
Proof.
  refine (conj jobs_init_empty
            (conj eg_scheduled_reachable (conj eg_scheduled_job _))).
  exact (jobs_match_their_tasks (H := simple_triggers) init eg_scheduled _ _
           jobs_init_empty eg_scheduled_reachable eg_scheduled_job).
Defined.

Lemma fired_job_runs_registered_body_witness :
  jobs init = ∅ ∧
  reachable_from (H := simple_triggers) any_call init eg_scheduled ∧
  jobs eg_scheduled !! job_id 1 = Some (new_job 1 "job" (IntervalTrigger 5)) ∧
  ∃ t,
    tasks eg_scheduled !! (job_args (new_job 1 "job" (IntervalTrigger 5))).1
    = Some t ∧
    tasks (run (H := simple_triggers) (Fire (job_id 1) "t1" "t2" Returns)
             eg_scheduled)
      !! (job_args (new_job 1 "job" (IntervalTrigger 5))).1
    = Some (executed "t1" "t2" (if Returns is Returns then true else false) t) ∧
    task_logs (run (H := simple_triggers) (Fire (job_id 1) "t1" "t2" Returns)
                 eg_scheduled)
    = (task_logs eg_scheduled ++
       [{| log_task_id := (job_args (new_job 1 "job" (IntervalTrigger 5))).1;
           log_status := if Returns is Returns then completed else failed;
           started_at := "t1"; completed_at := Some "t2";
           error_message := if Returns is Raises e then Some e else None |}])%list.
Proof.
  refine (conj jobs_init_empty
            (conj eg_scheduled_reachable (conj eg_scheduled_job _))).
  exact (fired_job_runs_registered_body (H := simple_triggers) init
           eg_scheduled _ _ "t1" "t2" Returns
           jobs_init_empty eg_scheduled_reachable eg_scheduled_job).
Defined.

Lemma unscheduled_task_never_fires_witness :
  jobs init = ∅ ∧
  reachable_from (H := simple_triggers) any_call init (eg_ran 0 3 Returns) ∧
  tasks (eg_ran 0 3 Returns) !! 1
  = Some (executed "t1" "t2" true (new_row 1 "t0" "job" "normal" None 0 3)) ∧
  (∀ s, schedule (executed "t1" "t2" true
                    (new_row 1 "t0" "job" "normal" None 0 3)) = Some s →
        _parse_schedule (H := simple_triggers) s = None) ∧
  jobs (eg_ran 0 3 Returns) !! job_id 1 = None ∧
  tasks (run (H := simple_triggers) (Fire (job_id 1) "t3" "t4" Returns)
           (eg_ran 0 3 Returns)) !! 1
  = Some (executed "t1" "t2" true (new_row 1 "t0" "job" "normal" None 0 3)).
Proof.
  pose proof (eg_ran_reachable 0 3 Returns) as Hreach.
  assert (tasks (eg_ran 0 3 Returns) !! 1
          = Some (executed "t1" "t2" true
                    (new_row 1 "t0" "job" "normal" None 0 3))) as Hrow
    by (vm_compute; reflexivity).
  assert (∀ s, schedule (executed "t1" "t2" true
                           (new_row 1 "t0" "job" "normal" None 0 3)) = Some s →
               _parse_schedule (H := simple_triggers) s = None) as Hsched.
  { intros s Hs. vm_compute in Hs. discriminate. }
  refine (conj jobs_init_empty (conj Hreach (conj Hrow (conj Hsched _)))).
  exact (unscheduled_task_never_fires (H := simple_triggers) init _ 1 _
           (job_id 1) "t3" "t4" Returns jobs_init_empty Hreach Hrow Hsched).
Defined.

Lemma cancelled_task_never_dispatched_witness :
  jobs init = ∅ ∧
  is_Some (tasks (occur_all (H := simple_triggers) eg_scheduling init) !! 1) ∧
  let st1 :=
    (cancel_task "t3" 1 (occur_all (H := simple_triggers) eg_scheduling init)).2
  in
  let st' := occur_all (H := simple_triggers) eg_late st1 in
  (∃ t, tasks st1 !! 1 = Some t ∧ status t = cancelled) ∧
  jobs st' !! job_id 1 = None ∧
  (∀ j job, jobs st' !! j = Some job → (job_args job).1 ≠ 1) ∧
  (∀ j ts te body,
     tasks (run (H := simple_triggers) (Fire j ts te body) st') !! 1
     = tasks st' !! 1 ∧
     logs_of 1 (task_logs (run (H := simple_triggers) (Fire j ts te body) st'))
     = logs_of 1 (task_logs st')) ∧
  (∀ ts te body ty,
     ∃ t', tasks (occur (H := simple_triggers) (Completes ts te body 1 ty) st1)
             !! 1 = Some t' ∧
           status t' ∈ [completed; pending; failed]).
Proof.
  assert (is_Some (tasks (occur_all (H := simple_triggers) eg_scheduling init)
                     !! 1)) as Hrow
    by (eexists; vm_compute; reflexivity).
  refine (conj jobs_init_empty (conj Hrow _)).
  exact (cancelled_task_never_dispatched (H := simple_triggers) init
           eg_scheduling "t3" 1 eg_late jobs_init_empty Hrow).
Defined.

Lemma cancel_then_trigger_is_refused_witness :
  tasks eg_scheduled !! 1
  = Some (new_row 1 "t0" "job" "critical" (Some "interval 5") 0 3) ∧
  jobs (cancel_task "t3" 1 eg_scheduled).2 !! job_id 1 = None ∧
  trigger_task "t4" "t5" Returns 1 (cancel_task "t3" 1 eg_scheduled).2
  = Ok false (cancel_task "t3" 1 eg_scheduled).2 ∧
  run (H := simple_triggers) (Fire (job_id 1) "t4" "t5" Returns)
    (cancel_task "t3" 1 eg_scheduled).2
  = (cancel_task "t3" 1 eg_scheduled).2.
Proof.
  assert (tasks eg_scheduled !! 1
          = Some (new_row 1 "t0" "job" "critical" (Some "interval 5") 0 3))
    as Hrow by (vm_compute; reflexivity).
  split; [exact Hrow|].
  exact (cancel_then_trigger_is_refused (H := simple_triggers) "t3" "t4" "t5"
           Returns 1 eg_scheduled _ Hrow).
Defined.

Lemma task_ids_strictly_increase_witness :
  add_task (H := simple_triggers) "t0" "job" "normal" None 0 3 false
    eg_registered = Ok 1 (eg_added 0 3) ∧
  reachable_from (H := simple_triggers) any_call (eg_added 0 3)
    (run (H := simple_triggers) (CancelTask "t1" 1) (eg_added 0 3)) ∧
  add_task (H := simple_triggers) "t2" "job" "low" None 0 3 false
    (run (H := simple_triggers) (CancelTask "t1" 1) (eg_added 0 3))
  = Ok 2 (state_of
            (add_task (H := simple_triggers) "t2" "job" "low" None 0 3 false
               (run (H := simple_triggers) (CancelTask "t1" 1)
                  (eg_added 0 3)))) ∧
  1 < 2.
Proof.
  assert (add_task (H := simple_triggers) "t0" "job" "normal" None 0 3 false
            eg_registered = Ok 1 (eg_added 0 3)) as Hadd
    by (vm_compute; reflexivity).
  pose proof (one_step_reachable (CancelTask "t1" 1) (eg_added 0 3)) as Hreach.
  assert (add_task (H := simple_triggers) "t2" "job" "low" None 0 3 false
            (run (H := simple_triggers) (CancelTask "t1" 1) (eg_added 0 3))
          = Ok 2 (state_of
                    (add_task (H := simple_triggers) "t2" "job" "low" None
                       0 3 false
                       (run (H := simple_triggers) (CancelTask "t1" 1)
                          (eg_added 0 3))))) as Hadd'
    by (vm_compute; reflexivity).
  refine (conj Hadd (conj Hreach (conj Hadd' _))).
  exact (task_ids_strictly_increase (H := simple_triggers) _ _ _ _ _ _ _ _ _
           _ _ _ _ _ _ _ _ _ _ _ Hadd Hreach Hadd').
Defined.

Lemma existing_task_never_scheduled_later_witness :
  reachable_from (H := simple_triggers) any_call eg_scheduled
    (run (H := simple_triggers) (Register "other" (Fn 1)) eg_scheduled) ∧
  1 < lastrowid eg_scheduled ∧
  jobs (run (H := simple_triggers) (Register "other" (Fn 1)) eg_scheduled)
    !! job_id 1 = Some (new_job 1 "job" (IntervalTrigger 5)) ∧
  jobs eg_scheduled !! job_id 1 = Some (new_job 1 "job" (IntervalTrigger 5)).
Proof.
  pose proof (one_step_reachable (Register "other" (Fn 1)) eg_scheduled)
    as Hreach.
  assert (1 < lastrowid eg_scheduled) as Hk by (vm_compute; reflexivity).
  assert (jobs (run (H := simple_triggers) (Register "other" (Fn 1))
                  eg_scheduled) !! job_id 1
          = Some (new_job 1 "job" (IntervalTrigger 5))) as Hj
    by (vm_compute; reflexivity).
  refine (conj Hreach (conj Hk (conj Hj _))).
  exact (existing_task_never_scheduled_later (H := simple_triggers)
           eg_scheduled _ 1 _ Hreach Hk Hj).
Defined.

Lemma failing_triggers_use_up_retries_witness :
  tasks (eg_added 0 3) !! 1 = Some (new_row 1 "t0" "job" "normal" None 0 3) ∧
  (status (new_row 1 "t0" "job" "normal" None 0 3)
   ∉ [cancelled; completed]) ∧
  (run_body (task_type (new_row 1 "t0" "job" "normal" None 0 3))
     (Raises "boom") (eg_added 0 3)).1 = false ∧
  (0 < 4)%nat ∧
  ∃ t',
    tasks (run_all (H := simple_triggers)
             (replicate 4 (TriggerTask "t1" "t2" (Raises "boom") 1))
             (eg_added 0 3)) !! 1 = Some t' ∧
    (status t', retry_count t')
    = after_failures 4 (new_row 1 "t0" "job" "normal" None 0 3).
Proof.
  assert (tasks (eg_added 0 3) !! 1
          = Some (new_row 1 "t0" "job" "normal" None 0 3)) as Hrow
    by (vm_compute; reflexivity).
  assert (status (new_row 1 "t0" "job" "normal" None 0 3)
          ∉ [cancelled; completed]) as Hst by by_compute.
  assert ((run_body (task_type (new_row 1 "t0" "job" "normal" None 0 3))
             (Raises "boom") (eg_added 0 3)).1 = false) as Hfail
    by (vm_compute; reflexivity).
  assert (0 < 4)%nat as Hn by lia.
  refine (conj Hrow (conj Hst (conj Hfail (conj Hn _)))).
  exact (failing_triggers_use_up_retries (H := simple_triggers) 4 "t1" "t2"
           (Raises "boom") 1 (eg_added 0 3) _ Hrow Hst Hfail Hn).
Defined.

(** ** Edge cases of single calls *)

(** X20: [trigger_task] on a task whose type has no registered body still
    returns [True]: nothing is run, one failed record with the message
    "No function registered for task type: <type>" is appended, and the
    row is treated as after any other failure. *)
Theorem trigger_unregistered_type_records_failure ts te body k st t :
  tasks st !! k = Some t →
  status t ∉ [cancelled; completed] →
  task_type t ∉ dom (task_functions st) →
  ∃ st',
    trigger_task ts te body k st = Ok true st' ∧
    tasks st' = <[k := executed ts te false t]> (tasks st) ∧
    task_logs st'
    = (task_logs st ++
       [{| log_task_id := k; log_status := failed; started_at := ts;
           completed_at := Some te;
           error_message :=
             Some ("No function registered for task type: " +:+ task_type t)
        |}])%list.
Proof.
  intros Hk Hst Hty. unfold trigger_task. rewrite Hk, decide_False by done.
  destruct (execute_task_present ts te body k (task_type t) st t Hk)
    as (st' & Hok & Htasks & Hlogs & _). rewrite Hok.
  exists st'. split; [done|]. rewrite Htasks, Hlogs.
  unfold execution_log, run_body. by rewrite decide_False.
Qed.

Lemma trigger_unregistered_type_records_failure_witness :
  tasks (state_of (add_task (H := simple_triggers) "t0" "report" "low" None
                     0 3 false init)) !! 1
  = Some (new_row 1 "t0" "report" "low" None 0 3) ∧
  (status (new_row 1 "t0" "report" "low" None 0 3) ∉ [cancelled; completed]) ∧
  (task_type (new_row 1 "t0" "report" "low" None 0 3)
   ∉ dom (task_functions
            (state_of (add_task (H := simple_triggers) "t0" "report" "low"
                         None 0 3 false init)))) ∧
  ∃ st',
    trigger_task "t1" "t2" Returns 1
      (state_of (add_task (H := simple_triggers) "t0" "report" "low" None
                   0 3 false init)) = Ok true st' ∧
    tasks st'
    = <[1 := executed "t1" "t2" false
               (new_row 1 "t0" "report" "low" None 0 3)]>
        (tasks (state_of (add_task (H := simple_triggers) "t0" "report" "low"
                            None 0 3 false init))) ∧
    task_logs st'
    = (task_logs (state_of (add_task (H := simple_triggers) "t0" "report"
                              "low" None 0 3 false init)) ++
       [{| log_task_id := 1; log_status := failed; started_at := "t1";
           completed_at := Some "t2";
           error_message :=
             Some ("No function registered for task type: "
                   +:+ task_type (new_row 1 "t0" "report" "low" None 0 3))
        |}])%list.
Proof.
  assert (tasks (state_of (add_task (H := simple_triggers) "t0" "report"
                             "low" None 0 3 false init)) !! 1
          = Some (new_row 1 "t0" "report" "low" None 0 3)) as Hrow
    by (vm_compute; reflexivity).
  assert (status (new_row 1 "t0" "report" "low" None 0 3)
          ∉ [cancelled; completed]) as Hst by by_compute.
  assert (task_type (new_row 1 "t0" "report" "low" None 0 3)
          ∉ dom (task_functions
                   (state_of (add_task (H := simple_triggers) "t0" "report"
                                "low" None 0 3 false init)))) as Hty
    by by_compute.
  refine (conj Hrow (conj Hst (conj Hty _))).
  exact (trigger_unregistered_type_records_failure "t1" "t2" Returns 1 _ _
           Hrow Hst Hty).
Defined.

(** X21: in manual-only mode, or with a schedule that is [None] or empty,
    [add_task] stores the row, schedule column included, and leaves the job
    store as it was, also for a registered type and a schedule that
    parses. *)
Theorem add_task_manual_only_registers_nothing `{TriggerLib} now ty pr sched
    rc mr manual st :
  pr ∈ TASK_PRIORITIES →
  manual = true ∨ Py.truthy sched = false →
  ∃ tid st',
    add_task now ty pr sched rc mr manual st = Ok tid st' ∧
    schedule <$> get_task_status tid st' = Some sched ∧
    jobs st' = jobs st.
Proof.
  intros Hpr Hmanual.
  destruct (add_task_valid now ty pr sched rc mr manual st Hpr)
    as (st' & Hok & Htasks & _ & _ & Hjobs).
  exists (lastrowid st), st'. split; [done|]. split.
  - unfold get_task_status. by rewrite Htasks, lookup_insert_eq.
  - rewrite Hjobs. unfold scheduled_trigger.
    destruct sched as [s|]; [|done].
    destruct Hmanual as [-> | ->]; [|done].
    by rewrite andb_false_r.
Qed.

Lemma add_task_manual_only_registers_nothing_witness :
  "normal" ∈ TASK_PRIORITIES ∧
  (true = true ∨ Py.truthy (Some "interval 5") = false) ∧
  ∃ tid st',
    add_task (H := simple_triggers) "t0" "job" "normal" (Some "interval 5")
      0 3 true eg_registered = Ok tid st' ∧
    schedule <$> get_task_status tid st' = Some (Some "interval 5") ∧
    jobs st' = jobs eg_registered.
Proof.
  assert ("normal" ∈ TASK_PRIORITIES) as Hpr by by_compute.
  assert (true = true ∨ Py.truthy (Some "interval 5") = false) as Hm
    by (left; reflexivity).
  refine (conj Hpr (conj Hm _)).
  exact (add_task_manual_only_registers_nothing (H := simple_triggers) "t0"
           "job" "normal" (Some "interval 5") 0 3 true eg_registered Hpr Hm).
Defined.

(** X22: [cancel_task] is idempotent: cancelling a task twice leaves the
    scheduler as cancelling it once at the later time does. *)
Theorem cancel_task_idempotent now1 now2 k st :
  (cancel_task now2 k (cancel_task now1 k st).2).2 = (cancel_task now2 k st).2
  ∧ (cancel_task now2 k (cancel_task now1 k st).2).1 = true.
Proof.
  split; [|done]. unfold cancel_task, with_tasks, with_jobs. simpl. f_equal.
  - apply map_eq. intros j. destruct (decide (k = j)) as [<-|Hne].
    + rewrite !lookup_alter_eq. by destruct (tasks st !! k).
    + by rewrite !lookup_alter_ne.
  - apply delete_delete_eq.
Qed.
